(** * Fault injector of the Antenna worker (trapdata/antenna/fault_injector.py)

    A shallow embedding of the [FaultInjector] class and proofs of the
    properties its specification states.

    - Python [str] values are Rocq strings; a character is a code point
      below 256.
    - Python [float] is IEEE 754 binary64, which is Rocq's primitive
      [float]; comparisons are [PrimFloat.ltb] and [PrimFloat.leb], so a
      NaN compares false with everything, as in Python.
    - A method is a computation over an explicit state that holds the
      object [self], [os.environ], the generator of the [random] module and
      the records handed to the logger.  A computation returns, raises an
      exception or exits the process. *)

From Stdlib Require Import Floats ZArith Ascii String List Lia.
From stdpp Require Import base strings gmap.

Open Scope string_scope.
Open Scope list_scope.

(** ** Python string operations used by the module *)

Module PyStr.

Local Open Scope nat_scope.

Definition code (c : ascii) : nat := nat_of_ascii c.

(** [str.isspace] on one character (code points below 256). *)
Definition isspace (c : ascii) : bool :=
  let n := code c in
  ((9 <=? n) && (n <=? 13)) || ((28 <=? n) && (n <=? 32))
  || (n =? 133) || (n =? 160).

(** [str.lower] on one character: A-Z and the Latin-1 capitals. *)
Definition lower_char (c : ascii) : ascii :=
  let n := code c in
  if ((65 <=? n) && (n <=? 90))
     || ((192 <=? n) && (n <=? 222) && negb (n =? 215))
  then ascii_of_nat (n + 32) else c.

Fixpoint lower (s : string) : string :=
  match s with
  | EmptyString => EmptyString
  | String c s' => String (lower_char c) (lower s')
  end.

Fixpoint lstrip (s : string) : string :=
  match s with
  | EmptyString => EmptyString
  | String c s' => if isspace c then lstrip s' else s
  end.

Fixpoint rstrip (s : string) : string :=
  match s with
  | EmptyString => EmptyString
  | String c s' =>
      match rstrip s' with
      | EmptyString => if isspace c then EmptyString else String c EmptyString
      | r => String c r
      end
  end.

(** [s.strip()] *)
Definition strip (s : string) : string := rstrip (lstrip s).

(** [sep in s] for a one-character [sep]. *)
Fixpoint contains (sep : ascii) (s : string) : bool :=
  match s with
  | EmptyString => false
  | String c s' => Ascii.eqb c sep || contains sep s'
  end.

(** [s.split(sep)] for a one-character [sep]: one piece more than there
    are separators, empty pieces kept. *)
Fixpoint split (sep : ascii) (s : string) : list string :=
  match s with
  | EmptyString => [EmptyString]
  | String c s' =>
      if Ascii.eqb c sep then EmptyString :: split sep s'
      else match split sep s' with
           | [] => [String c EmptyString]
           | p :: ps => String c p :: ps
           end
  end.

(** [l[-1]] on the result of a split, which is never empty. *)
Definition last_piece (l : list string) : string := List.last l EmptyString.

(** Truth value of a string: [if s:] *)
Definition truthy (s : string) : bool := negb (String.eqb s EmptyString).

End PyStr.

(** ** Python floats *)

Module PyFloat.

Open Scope float_scope.

(** The chained comparison [0.0 <= x <= 1.0]. *)
Definition in_unit_range (x : float) : bool := (0 <=? x) && (x <=? 1).

(** The range of [random.random()]: [0.0 <= x < 1.0]. *)
Definition is_draw (x : float) : bool := (0 <=? x) && (x <? 1).

End PyFloat.

(** ** Outcomes, exceptions and log records *)

(** The exception classes the module raises or catches.  [ConnectionError],
    [Timeout] and [HTTPError] are the classes of [requests.exceptions]; none
    of the six is a subclass of another. *)
Inductive ExnClass :=
| ConnectionError | Timeout | HTTPError | ValueError | RuntimeError | IndexError.

Global Instance ExnClass_eq_dec : EqDecision ExnClass.
Proof. solve_decision. Defined.

(** [requests.Response()]: [status_code] is [None] until it is assigned. *)
Record Response := { status_code : option Z }.

(** An exception object: its class, its message, and the [response]
    attribute ([None] unless given by keyword). *)
Record Exn := {
  exn_class : ExnClass;
  exn_message : string;
  exn_response : option Response
}.

Definition mk_exn (c : ExnClass) (msg : string) : Exn :=
  {| exn_class := c; exn_message := msg; exn_response := None |}.

(** How a call ends: it returns a value, an exception propagates to the
    caller, or [sys.exit] ends the process with a status. *)
Inductive Outcome (A : Type) :=
| Return (a : A)
| Raise (e : Exn)
| Exit (status : Z).
Arguments Return {A} a.
Arguments Raise {A} e.
Arguments Exit {A} status.

Inductive LogLevel := INFO | WARNING | ERROR.

(** One constructor per message template of the module; the arguments are
    the values the f-string interpolates. *)
Inductive LogEvent :=
| FaultInjectionDisabled
| FaultInjectionEnabled (crash network corrupt not_found transient : float)
    (permanent : nat)
| InvalidRate (env_var : string) (rate : float)
| InvalidRateFormat (env_var : string) (value : option string) (default : float)
| SimulatedWorkerCrash (context : string)
| SimulatedNetworkError (operation : string)
| PermanentImageError404 (image_url : string)
| SimulatedImage404 (image_url : string)
| PermanentImageErrorCorrupt (image_url : string)
| SimulatedCorruptImage (image_url : string)
| SimulatedTransientError (operation : string)
| FaultInjectionIsDisabled
| FaultInjectionRates (crash network corrupt not_found transient : float)
    (permanent : nat).

Record LogRecord := { level : LogLevel; event : LogEvent }.

(** ** State *)

(** The generator of the [random] module.  [uniform_tape k] is what
    [random.random()] returns when it is the [k]-th use of the generator,
    [index_tape k] the integer from which [random.choice] takes its
    index. *)
Record Random := {
  uniform_tape : nat -> float;
  index_tape : nat -> nat;
  cursor : nat
}.

Definition advance (g : Random) : Random :=
  {| uniform_tape := uniform_tape g;
     index_tape := index_tape g;
     cursor := S (cursor g) |}.

(** The attributes of a [FaultInjector] instance. *)
Record FaultInjector := {
  enabled : bool;
  worker_crash_rate : float;
  network_error_rate : float;
  corrupt_image_rate : float;
  image_404_rate : float;
  transient_error_rate : float;
  permanent_error_images : gset string
}.

Record State := {
  self : FaultInjector;
  environ : gmap string string;
  rng : Random;
  log : list LogRecord
}.

Definition with_self (f : FaultInjector -> FaultInjector) (st : State) : State :=
  {| self := f (self st); environ := environ st; rng := rng st; log := log st |}.

Definition with_rng (f : Random -> Random) (st : State) : State :=
  {| self := self st; environ := environ st; rng := f (rng st); log := log st |}.

Definition with_log (f : list LogRecord -> list LogRecord) (st : State) : State :=
  {| self := self st; environ := environ st; rng := rng st; log := f (log st) |}.

(** Attribute assignments [self.x = v]. *)
Definition set_enabled (v : bool) (o : FaultInjector) : FaultInjector :=
  {| enabled := v;
     worker_crash_rate := worker_crash_rate o;
     network_error_rate := network_error_rate o;
     corrupt_image_rate := corrupt_image_rate o;
     image_404_rate := image_404_rate o;
     transient_error_rate := transient_error_rate o;
     permanent_error_images := permanent_error_images o |}.

Definition set_worker_crash_rate (v : float) (o : FaultInjector) : FaultInjector :=
  {| enabled := enabled o;
     worker_crash_rate := v;
     network_error_rate := network_error_rate o;
     corrupt_image_rate := corrupt_image_rate o;
     image_404_rate := image_404_rate o;
     transient_error_rate := transient_error_rate o;
     permanent_error_images := permanent_error_images o |}.

Definition set_network_error_rate (v : float) (o : FaultInjector) : FaultInjector :=
  {| enabled := enabled o;
     worker_crash_rate := worker_crash_rate o;
     network_error_rate := v;
     corrupt_image_rate := corrupt_image_rate o;
     image_404_rate := image_404_rate o;
     transient_error_rate := transient_error_rate o;
     permanent_error_images := permanent_error_images o |}.

Definition set_corrupt_image_rate (v : float) (o : FaultInjector) : FaultInjector :=
  {| enabled := enabled o;
     worker_crash_rate := worker_crash_rate o;
     network_error_rate := network_error_rate o;
     corrupt_image_rate := v;
     image_404_rate := image_404_rate o;
     transient_error_rate := transient_error_rate o;
     permanent_error_images := permanent_error_images o |}.

Definition set_image_404_rate (v : float) (o : FaultInjector) : FaultInjector :=
  {| enabled := enabled o;
     worker_crash_rate := worker_crash_rate o;
     network_error_rate := network_error_rate o;
     corrupt_image_rate := corrupt_image_rate o;
     image_404_rate := v;
     transient_error_rate := transient_error_rate o;
     permanent_error_images := permanent_error_images o |}.

Definition set_transient_error_rate (v : float) (o : FaultInjector) : FaultInjector :=
  {| enabled := enabled o;
     worker_crash_rate := worker_crash_rate o;
     network_error_rate := network_error_rate o;
     corrupt_image_rate := corrupt_image_rate o;
     image_404_rate := image_404_rate o;
     transient_error_rate := v;
     permanent_error_images := permanent_error_images o |}.

Definition set_permanent_error_images (v : gset string) (o : FaultInjector)
  : FaultInjector :=
  {| enabled := enabled o;
     worker_crash_rate := worker_crash_rate o;
     network_error_rate := network_error_rate o;
     corrupt_image_rate := corrupt_image_rate o;
     image_404_rate := image_404_rate o;
     transient_error_rate := transient_error_rate o;
     permanent_error_images := v |}.

(** ** Computations *)

Definition M (A : Type) : Type := State -> Outcome A * State.

Global Instance M_ret : MRet M := fun A a st => (Return a, st).

Global Instance M_bind : MBind M := fun A B f m st =>
  match m st with
  | (Return a, st') => f a st'
  | (Raise e, st') => (Raise e, st')
  | (Exit n, st') => (Exit n, st')
  end.

(** [raise e] *)
Definition raise {A} (e : Exn) : M A := fun st => (Raise e, st).

(** [sys.exit(status)] *)
Definition sys_exit {A} (status : Z) : M A := fun st => (Exit status, st).

(** [try: body / except <classes>: handler] *)
Definition try_except {A} (body : M A) (caught : ExnClass -> bool) (handler : M A)
  : M A := fun st =>
  match body st with
  | (Raise e, st') => if caught (exn_class e) then handler st' else (Raise e, st')
  | r => r
  end.

Definition get_self : M FaultInjector := fun st => (Return (self st), st).

(** [self.x = v], given as the update of the attributes. *)
Definition set_attr (f : FaultInjector -> FaultInjector) : M unit :=
  fun st => (Return tt, with_self f st).

(** [os.getenv(name)] and [os.getenv(name, default)] *)
Definition os_getenv (name : string) : M (option string) :=
  fun st => (Return (environ st !! name), st).

Definition os_getenv_default (name fallback : string) : M string :=
  fun st => (Return (default fallback (environ st !! name)), st).

(** [random.random()] *)
Definition random_random : M float :=
  fun st => (Return (uniform_tape (rng st) (cursor (rng st))), with_rng advance st).

(** [random.choice(seq)]: an index below [len(seq)]; [IndexError] on an
    empty sequence. *)
Definition random_choice {A} (seq : list A) : M A := fun st =>
  match seq !! (index_tape (rng st) (cursor (rng st)) mod length seq)%nat with
  | Some x => (Return x, with_rng advance st)
  | None => (Raise (mk_exn IndexError "Cannot choose from an empty sequence"), st)
  end.

Definition logger (lvl : LogLevel) (ev : LogEvent) : M unit :=
  fun st => (Return tt, with_log (fun l => l ++ [{| level := lvl; event := ev |}]) st).

Definition logger_info := logger INFO.
Definition logger_warning := logger WARNING.
Definition logger_error := logger ERROR.

(** ** The class [FaultInjector] *)

Section Construction.

(** The built-ins [float(s)] on a string ([None] when Python raises
    [ValueError]) and [str(x)] on a float. *)
Variable float_of_str : string -> option float.
Variable str_of_float : float -> string.

(** [float(s)]; the handler below looks at the class of the exception
    only, never at its message. *)
Definition float_ (s : string) : M float :=
  match float_of_str s with
  | Some x => mret x
  | None => raise (mk_exn ValueError ("could not convert string to float: " +:+ s))
  end.

Definition _parse_rate (env_var : string) (default : float) : M float :=
  try_except
    (raw ← os_getenv_default env_var (str_of_float default);
     rate ← float_ raw;
     if negb (PyFloat.in_unit_range rate)
     then logger_error (InvalidRate env_var rate);; mret default
     else mret rate)
    (fun c => bool_decide (c = ValueError))
    (value ← os_getenv env_var;
     logger_error (InvalidRateFormat env_var value default);;
     mret default).

(** The set comprehension
    [{img.strip() for img in s.split(",") if img.strip()}] *)
Definition parse_permanent_images (s : string) : gset string :=
  list_to_set
    (map PyStr.strip
       (List.filter (fun img => PyStr.truthy (PyStr.strip img)) (PyStr.split "," s))).

Definition __init__ : M unit :=
  flag ← os_getenv_default "AMI_TEST_FAULT_INJECTION_ENABLED" "false";
  set_attr (set_enabled (String.eqb (PyStr.lower flag) "true"));;
  r ← _parse_rate "AMI_TEST_WORKER_CRASH_RATE" 0%float;
  set_attr (set_worker_crash_rate r);;
  r ← _parse_rate "AMI_TEST_NETWORK_ERROR_RATE" 0%float;
  set_attr (set_network_error_rate r);;
  r ← _parse_rate "AMI_TEST_CORRUPT_IMAGE_RATE" 0%float;
  set_attr (set_corrupt_image_rate r);;
  r ← _parse_rate "AMI_TEST_IMAGE_404_RATE" 0%float;
  set_attr (set_image_404_rate r);;
  r ← _parse_rate "AMI_TEST_TRANSIENT_ERROR_RATE" 0%float;
  set_attr (set_transient_error_rate r);;
  permanent_images_str ← os_getenv_default "AMI_TEST_PERMANENT_ERROR_IMAGES" "";
  set_attr (set_permanent_error_images ∅);;
  (if PyStr.truthy permanent_images_str
   then set_attr (set_permanent_error_images
                    (parse_permanent_images permanent_images_str))
   else mret tt);;
  o ← get_self;
  if negb (enabled o) then logger_info FaultInjectionDisabled
  else
    logger_warning
      (FaultInjectionEnabled (worker_crash_rate o) (network_error_rate o)
         (corrupt_image_rate o) (image_404_rate o) (transient_error_rate o)
         (size (permanent_error_images o))).

End Construction.

(** [self.enabled and random.random() < rate]: no draw when disabled. *)
Definition _should_trigger (rate : float) : M bool :=
  o ← get_self;
  if enabled o then d ← random_random; mret (d <? rate)%float
  else mret false.

Definition maybe_crash_worker (context : string) : M unit :=
  o ← get_self;
  t ← _should_trigger (worker_crash_rate o);
  if (t : bool) then logger_error (SimulatedWorkerCrash context);; sys_exit 1
  else mret tt.

Definition maybe_network_error (operation : string) : M bool :=
  o ← get_self;
  t ← _should_trigger (network_error_rate o);
  if (t : bool) then logger_error (SimulatedNetworkError operation);; mret true
  else mret false.

(** [image_url.split("/")[-1] if "/" in image_url else image_url] *)
Definition filename_of (image_url : string) : string :=
  if PyStr.contains "/" image_url
  then PyStr.last_piece (PyStr.split "/" image_url)
  else image_url.

Definition _is_permanent_error_image (image_url : string) : M bool :=
  o ← get_self;
  if negb (enabled o) || bool_decide (permanent_error_images o = ∅)
  then mret false
  else
    let filename := filename_of image_url in
    mret (bool_decide (image_url ∈ permanent_error_images o)
          || bool_decide (filename ∈ permanent_error_images o)).

Definition maybe_image_404 (image_url : string) : M bool :=
  p ← _is_permanent_error_image image_url;
  if (p : bool) then logger_error (PermanentImageError404 image_url);; mret true
  else
    o ← get_self;
    t ← _should_trigger (image_404_rate o);
    if (t : bool) then logger_error (SimulatedImage404 image_url);; mret true
    else mret false.

Definition maybe_corrupt_image (image_url : string) : M bool :=
  p ← _is_permanent_error_image image_url;
  if (p : bool) then logger_error (PermanentImageErrorCorrupt image_url);; mret true
  else
    o ← get_self;
    t ← _should_trigger (corrupt_image_rate o);
    if (t : bool) then logger_error (SimulatedCorruptImage image_url);; mret true
    else mret false.

Definition maybe_transient_error (operation : string) : M bool :=
  o ← get_self;
  t ← _should_trigger (transient_error_rate o);
  if (t : bool) then logger_error (SimulatedTransientError operation);; mret true
  else mret false.

(** The list [error_types] of [raise_network_error]. *)
Definition error_types (operation : string) : list Exn :=
  [ mk_exn ConnectionError ("Simulated connection error during " +:+ operation);
    mk_exn Timeout ("Simulated timeout during " +:+ operation);
    mk_exn HTTPError ("Simulated HTTP 500 error during " +:+ operation) ].

Definition raise_network_error (operation : string) : M unit :=
  e ← random_choice (error_types operation);
  raise e.

Definition raise_image_error (image_url error_type : string) : M unit :=
  if String.eqb error_type "404" then
    let response := {| status_code := Some 404%Z |} in
    raise {| exn_class := HTTPError;
             exn_message := "404 Not Found";
             exn_response := Some response |}
  else if String.eqb error_type "corrupt" then
    raise (mk_exn ValueError ("Simulated corrupt image data for " +:+ image_url))
  else if String.eqb error_type "timeout" then
    raise (mk_exn Timeout ("Simulated timeout downloading " +:+ image_url))
  else
    raise (mk_exn RuntimeError ("Simulated unknown error for image " +:+ image_url)).

Definition get_corrupt_image_data : M (list Byte.byte) :=
  mret (list_byte_of_string "CORRUPT_IMAGE_DATA_NOT_VALID_JPEG_OR_PNG").

Definition log_statistics : M unit :=
  o ← get_self;
  if negb (enabled o) then logger_info FaultInjectionIsDisabled
  else
    logger_info
      (FaultInjectionRates (worker_crash_rate o) (network_error_rate o)
         (corrupt_image_rate o) (image_404_rate o) (transient_error_rate o)
         (size (permanent_error_images o))).

(** ** Calls made by the host code *)

(** The methods a caller can invoke on a constructed injector. *)
Inductive Call :=
| CallMaybeCrashWorker (context : string)
| CallMaybeNetworkError (operation : string)
| CallMaybeImage404 (image_url : string)
| CallMaybeCorruptImage (image_url : string)
| CallMaybeTransientError (operation : string)
| CallShouldTrigger (rate : float)
| CallIsPermanentErrorImage (image_url : string)
| CallRaiseNetworkError (operation : string)
| CallRaiseImageError (image_url error_type : string)
| CallGetCorruptImageData
| CallLogStatistics.

(** What the caller sees of a call whose value it drops. *)
Inductive Status :=
| Returned
| Raised (e : Exn)
| Exited (status : Z).

Definition observe {A} (r : Outcome A * State) : Status * State :=
  match r with
  | (Return _, st) => (Returned, st)
  | (Raise e, st) => (Raised e, st)
  | (Exit n, st) => (Exited n, st)
  end.

Definition perform (c : Call) (st : State) : Status * State :=
  match c with
  | CallMaybeCrashWorker context => observe (maybe_crash_worker context st)
  | CallMaybeNetworkError operation => observe (maybe_network_error operation st)
  | CallMaybeImage404 image_url => observe (maybe_image_404 image_url st)
  | CallMaybeCorruptImage image_url => observe (maybe_corrupt_image image_url st)
  | CallMaybeTransientError operation => observe (maybe_transient_error operation st)
  | CallShouldTrigger rate => observe (_should_trigger rate st)
  | CallIsPermanentErrorImage image_url =>
      observe (_is_permanent_error_image image_url st)
  | CallRaiseNetworkError operation => observe (raise_network_error operation st)
  | CallRaiseImageError image_url error_type =>
      observe (raise_image_error image_url error_type st)
  | CallGetCorruptImageData => observe (get_corrupt_image_data st)
  | CallLogStatistics => observe (log_statistics st)
  end.

(** The states after each call of a sequence.  The caller catches what a
    call raises and goes on; after [sys.exit] nothing more runs. *)
Fixpoint run_calls (cs : list Call) (st : State) : list State :=
  match cs with
  | [] => []
  | c :: cs' =>
      match perform c st with
      | (Exited _, st') => [st']
      | (_, st') => st' :: run_calls cs' st'
      end
  end.

(** ** Notions of the specification *)

(** The value the next [random.random()] returns. *)
Definition next_draw (st : State) : float :=
  uniform_tape (rng st) (cursor (rng st)).

(** The index the next [random.choice] takes in a sequence of length [n]. *)
Definition next_index (n : nat) (st : State) : nat :=
  (index_tape (rng st) (cursor (rng st)) mod n)%nat.

Definition has_slash (s : string) : Prop :=
  exists p q, s = p +:+ String "/" q.

(** [f] is the substring of [s] after the last ['/'], or [s] itself when
    [s] has none. *)
Definition is_filename (s f : string) : Prop :=
  (~ has_slash s /\ f = s)
  \/ (~ has_slash f /\ exists p, s = p +:+ String "/" f).

(** Section 4.1, each rate parse: the conversion fails or its result is
    outside [0.0, 1.0]: the default; otherwise the parsed value. *)
Definition spec_rate (converted : option float) (default : float) : float :=
  match converted with
  | None => default
  | Some r => if PyFloat.in_unit_range r then r else default
  end.

(** The verdict of [_is_permanent_error_image], as a function of the
    attributes. *)
Definition permanent_verdict (o : FaultInjector) (image_url : string) : bool :=
  if negb (enabled o) || bool_decide (permanent_error_images o = ∅) then false
  else bool_decide (image_url ∈ permanent_error_images o)
       || bool_decide (filename_of image_url ∈ permanent_error_images o).

(** The state after one more record went to the logger. *)
Definition logged (lvl : LogLevel) (ev : LogEvent) (st : State) : State :=
  with_log (fun l => l ++ [{| level := lvl; event := ev |}]) st.

(** A probabilistic stage: the draw, then the record of the fault when it
    triggers. *)
Definition drawn (rate : float) (ev : LogEvent) (st : State) : Outcome bool * State :=
  if enabled (self st) then
    if (next_draw st <? rate)%float
    then (Return true, logged ERROR ev (with_rng advance st))
    else (Return false, with_rng advance st)
  else (Return false, st).

(** The string a rate is converted from: the variable when it is set,
    else [str(default)]. *)
Definition rate_input (str_of_float : float -> string)
  (env : gmap string string) (env_var : string) (dflt : float) : string :=
  default (str_of_float dflt) (env !! env_var).

(** The diagnostic of a rate parse: none for a value in range. *)
Definition rate_diagnostic (env_var : string) (value : option string)
  (converted : option float) (default : float) : list LogRecord :=
  match converted with
  | None =>
      [{| level := ERROR; event := InvalidRateFormat env_var value default |}]
  | Some r =>
      if PyFloat.in_unit_range r then []
      else [{| level := ERROR; event := InvalidRate env_var r |}]
  end.

(** The attributes the specification prescribes for an injector
    constructed in the environment [env]. *)
Section Configured.

Variable float_of_str : string -> option float.
Variable str_of_float : float -> string.

Definition configured_rate (env : gmap string string) (env_var : string) : float :=
  spec_rate (float_of_str (rate_input str_of_float env env_var 0%float)) 0%float.

Definition configured (env : gmap string string) : FaultInjector :=
  {| enabled :=
       String.eqb
         (PyStr.lower (default "false" (env !! "AMI_TEST_FAULT_INJECTION_ENABLED")))
         "true";
     worker_crash_rate := configured_rate env "AMI_TEST_WORKER_CRASH_RATE";
     network_error_rate := configured_rate env "AMI_TEST_NETWORK_ERROR_RATE";
     corrupt_image_rate := configured_rate env "AMI_TEST_CORRUPT_IMAGE_RATE";
     image_404_rate := configured_rate env "AMI_TEST_IMAGE_404_RATE";
     transient_error_rate := configured_rate env "AMI_TEST_TRANSIENT_ERROR_RATE";
     permanent_error_images :=
       let images := default "" (env !! "AMI_TEST_PERMANENT_ERROR_IMAGES") in
       if PyStr.truthy images then parse_permanent_images images else ∅ |}.

End Configured.

(** ** Sample data for the examples *)

(** Stand-ins for [float] and [str] on the literals the examples use. *)
Definition sample_float (s : string) : option float :=
  if String.eqb s "0.0" then Some 0%float
  else if String.eqb s "0.25" then Some 0.25%float
  else if String.eqb s "1.0" then Some 1%float
  else if String.eqb s "1.5" then Some 1.5%float
  else if String.eqb s "nan" then Some nan
  else None.

Definition sample_str (x : float) : string :=
  if (x =? 0)%float then "0.0" else "0.25".

Definition sample_rng : Random :=
  {| uniform_tape := fun _ => 0.5%float; index_tape := fun k => k; cursor := 0 |}.

Definition sample_injector (on : bool) (rate : float) (images : gset string)
  : FaultInjector :=
  {| enabled := on;
     worker_crash_rate := rate;
     network_error_rate := rate;
     corrupt_image_rate := rate;
     image_404_rate := rate;
     transient_error_rate := rate;
     permanent_error_images := images |}.

Definition sample_state (on : bool) (rate : float) (images : gset string) : State :=
  {| self := sample_injector on rate images;
     environ := ∅;
     rng := sample_rng;
     log := [] |}.

(** ** Further notions *)

(** [sep.join(pieces)] for a one-character [sep]. *)
Fixpoint join (sep : ascii) (pieces : list string) : string :=
  match pieces with
  | [] => EmptyString
  | p :: rest =>
      match rest with
      | [] => p
      | _ :: _ => p +:+ String sep (join sep rest)
      end
  end.

(** How many times [sep] occurs in [s]: [s.count(sep)]. *)
Fixpoint count (sep : ascii) (s : string) : nat :=
  match s with
  | EmptyString => 0
  | String c s' => (if Ascii.eqb c sep then 1 else 0) + count sep s'
  end.

(** The records construction hands to the logger in the environment
    [env]: the diagnostics of the five rates, in the order they are parsed,
    then the notice. *)
Section ConstructionLog.

Variable float_of_str : string -> option float.
Variable str_of_float : float -> string.

Definition rate_variables : list string :=
  [ "AMI_TEST_WORKER_CRASH_RATE"; "AMI_TEST_NETWORK_ERROR_RATE";
    "AMI_TEST_CORRUPT_IMAGE_RATE"; "AMI_TEST_IMAGE_404_RATE";
    "AMI_TEST_TRANSIENT_ERROR_RATE" ].

Definition construction_diagnostics (env : gmap string string) : list LogRecord :=
  concat
    (map (fun v =>
            rate_diagnostic v (env !! v)
              (float_of_str (rate_input str_of_float env v 0%float)) 0%float)
       rate_variables).

Definition construction_notice (env : gmap string string) : LogRecord :=
  let o := configured float_of_str str_of_float env in
  if enabled o
  then {| level := WARNING;
          event :=
            FaultInjectionEnabled (worker_crash_rate o) (network_error_rate o)
              (corrupt_image_rate o) (image_404_rate o) (transient_error_rate o)
              (size (permanent_error_images o)) |}
  else {| level := INFO; event := FaultInjectionDisabled |}.

End ConstructionLog.

(** A query tells the logger of a fault exactly when it answers true: one
    error record then, none otherwise. *)
Definition logs_iff_true (m : M bool) (st : State) : Prop :=
  exists b st',
    m st = (Return b, st')
    /\ (b = true ->
        exists ev, log st' = log st ++ [{| level := ERROR; event := ev |}])
    /\ (b = false -> log st' = log st).

(** What a call may do to the state besides its result: use the generator
    [draws] times at most and append [records] records at most; the
    environment and the tapes of the generator stay. *)
Definition within (draws records : nat) (st st' : State) : Prop :=
  environ st' = environ st
  /\ uniform_tape (rng st') = uniform_tape (rng st)
  /\ index_tape (rng st') = index_tape (rng st)
  /\ (cursor (rng st) <= cursor (rng st') <= cursor (rng st) + draws)%nat
  /\ exists rs, log st' = log st ++ rs /\ (length rs <= records)%nat.

(** The second injector is at least as faulty as the first: the same
    switch and permanent-failure set, and no rate lower. *)
Definition no_less_faulty (o1 o2 : FaultInjector) : Prop :=
  enabled o1 = enabled o2
  /\ permanent_error_images o1 = permanent_error_images o2
  /\ (worker_crash_rate o1 <=? worker_crash_rate o2)%float = true
  /\ (network_error_rate o1 <=? network_error_rate o2)%float = true
  /\ (corrupt_image_rate o1 <=? corrupt_image_rate o2)%float = true
  /\ (image_404_rate o1 <=? image_404_rate o2)%float = true
  /\ (transient_error_rate o1 <=? transient_error_rate o2)%float = true.

(** A generator whose first output is 0.5 and whose later outputs are
    0.125, and an enabled injector with all rates 0.25 on it. *)
Definition stepping_rng : Random :=
  {| uniform_tape := fun k => match k with O => 0.5%float | S _ => 0.125%float end;
     index_tape := fun k => k;
     cursor := 0 |}.

Definition stepping_state : State :=
  {| self := sample_injector true 0.25%float ∅;
     environ := ∅;
     rng := stepping_rng;
     log := [] |}.

(** * Properties *)

Example split_path :
  PyStr.split "/" "http://host/path/a.jpg" = ["http:"; ""; "host"; "path"; "a.jpg"].
Proof. reflexivity. Qed.

Example split_empty : PyStr.split "," "" = [""].
Proof. reflexivity. Qed.

Example strip_ex : PyStr.strip "  a b.jpg  " = "a b.jpg".
Proof. reflexivity. Qed.

Example lower_ex : PyStr.lower "TrUe" = "true".
Proof. reflexivity. Qed.


(** ** Float comparisons *)

Section FloatFacts.

Local Open Scope float_scope.

Lemma Prim2SF_zero : Prim2SF 0 = S754_zero false.
Proof. reflexivity. Qed.

Lemma Prim2SF_one : Prim2SF 1 = S754_finite false 4503599627370496 (-52).
Proof. reflexivity. Qed.

(** [r == 0.0] holds of the two zeros only. *)
Lemma eqb_zero_inv (r : float) :
  (r =? 0) = true -> exists s, Prim2SF r = S754_zero s.
Proof.
  rewrite FloatAxioms.eqb_spec, Prim2SF_zero.
  destruct (Prim2SF r) as [s|s| |s m e];
    cbv beta iota delta [SFeqb SFcompare]; try destruct s; try discriminate; eauto.
Qed.

(** [r == 1.0] holds of [1.0] only. *)
Lemma eqb_one_inv (r : float) : (r =? 1) = true -> r = 1.
Proof.
  rewrite FloatAxioms.eqb_spec, Prim2SF_one.
  intros H. rewrite <- (SF2Prim_Prim2SF r), <- (SF2Prim_Prim2SF 1), Prim2SF_one.
  destruct (Prim2SF r) as [s|s| |s m e];
    cbv beta iota delta [SFeqb SFcompare] in H; try destruct s; try discriminate.
  destruct (e ?= -52)%Z eqn:He; try discriminate.
  apply Z.compare_eq in He.
  destruct (PosDef.Pos.compare_cont Eq m 4503599627370496) eqn:Hm; try discriminate.
  apply (Pos.compare_eq m 4503599627370496) in Hm.
  now subst.
Qed.

(** No float that is [>= 0.0] is below a zero. *)
Lemma draw_not_below_zero (d r : float) :
  (0 <=? d) = true -> (r =? 0) = true -> (d <? r) = false.
Proof.
  intros Hd Hr. destruct (eqb_zero_inv r Hr) as [s Hs].
  revert Hd. rewrite FloatAxioms.leb_spec, FloatAxioms.ltb_spec, Hs, Prim2SF_zero.
  destruct (Prim2SF d) as [s'|s'| |s' m e];
    cbv beta iota delta [SFleb SFltb SFcompare];
    try destruct s'; try discriminate; reflexivity.
Qed.

Lemma is_draw_inv (d : float) :
  PyFloat.is_draw d = true -> (0 <=? d) = true /\ (d <? 1) = true.
Proof. unfold PyFloat.is_draw. intros H. apply andb_prop in H. exact H. Qed.

End FloatFacts.

(** ** The equations of the two helper methods *)

Ltac run :=
  unfold mbind, mret, M_bind, M_ret, get_self, raise, sys_exit, set_attr,
    logger_error, logger_info, logger_warning, logger, random_random,
    os_getenv, os_getenv_default; cbn beta iota.

Lemma should_trigger_eq (rate : float) (st : State) :
  _should_trigger rate st =
    if enabled (self st)
    then (Return (next_draw st <? rate)%float, with_rng advance st)
    else (Return false, st).
Proof.
  unfold _should_trigger. run. destruct (enabled (self st)); reflexivity.
Qed.

Lemma is_permanent_error_image_eq (image_url : string) (st : State) :
  _is_permanent_error_image image_url st =
    (Return (permanent_verdict (self st) image_url), st).
Proof.
  unfold _is_permanent_error_image, permanent_verdict. run.
  destruct (negb (enabled (self st)) || _); reflexivity.
Qed.

(** ** Disabled injector *)

(** C1. With [enabled = false] every [maybe_*] query returns false, or
    returns without exiting for [maybe_crash_worker], and leaves the state
    as it was, whatever the rates are; the permanent-failure check answers
    false for every identifier, those of the set included. *)
Theorem disabled_injector_is_inert (st : State) (text image_url : string) :
  enabled (self st) = false ->
  maybe_crash_worker text st = (Return tt, st)
  /\ maybe_network_error text st = (Return false, st)
  /\ maybe_image_404 image_url st = (Return false, st)
  /\ maybe_corrupt_image image_url st = (Return false, st)
  /\ maybe_transient_error text st = (Return false, st)
  /\ _is_permanent_error_image image_url st = (Return false, st)
  /\ (forall rate, _should_trigger rate st = (Return false, st)).
Proof.
  intros Hoff.
  assert (Hp : _is_permanent_error_image image_url st = (Return false, st)).
  { rewrite is_permanent_error_image_eq. unfold permanent_verdict.
    now rewrite Hoff. }
  assert (Ht : forall rate, _should_trigger rate st = (Return false, st)).
  { intros rate. rewrite should_trigger_eq. now rewrite Hoff. }
  repeat split; try assumption.
  - unfold maybe_crash_worker. run. now rewrite Ht.
  - unfold maybe_network_error. run. now rewrite Ht.
  - unfold maybe_image_404. run. rewrite Hp. cbn beta iota. now rewrite Ht.
  - unfold maybe_corrupt_image. run. rewrite Hp. cbn beta iota. now rewrite Ht.
  - unfold maybe_transient_error. run. now rewrite Ht.
Qed.

Lemma disabled_injector_is_inert_witness :
  enabled (self (sample_state false 1%float {[ "a.jpg" ]})) = false
  /\ maybe_image_404 "a.jpg" (sample_state false 1%float {[ "a.jpg" ]})
     = (Return false, sample_state false 1%float {[ "a.jpg" ]})
  /\ maybe_crash_worker "job" (sample_state false 1%float {[ "a.jpg" ]})
     = (Return tt, sample_state false 1%float {[ "a.jpg" ]}).
Proof.
  pose proof (disabled_injector_is_inert
                (sample_state false 1%float {[ "a.jpg" ]}) "job" "a.jpg"
                eq_refl) as H.
  split; [reflexivity|]. split; [apply H|apply H].
Defined.

(** ** Probability draw *)

(** C3. For every rate and every draw in [0, 1), [_should_trigger] returns
    true exactly when the injector is enabled and the draw is strictly
    below the rate; so a rate equal to 0.0 never triggers, and on an
    enabled injector a rate equal to 1.0 triggers on every draw. *)
Theorem should_trigger_iff (rate : float) (st : State) :
  PyFloat.is_draw (next_draw st) = true ->
  exists b st',
    _should_trigger rate st = (Return b, st')
    /\ (b = true <->
        enabled (self st) = true /\ (next_draw st <? rate)%float = true)
    /\ ((rate =? 0)%float = true -> b = false)
    /\ (enabled (self st) = true -> (rate =? 1)%float = true -> b = true).
Proof.
  intros Hd. apply is_draw_inv in Hd. destruct Hd as [Hlo Hhi].
  rewrite should_trigger_eq.
  destruct (enabled (self st)) eqn:Hon.
  - exists (next_draw st <? rate)%float, (with_rng advance st).
    split; [reflexivity|]. split; [|split].
    + split; [intros ->; now split|now intros [_ H]].
    + intros Hz. now apply draw_not_below_zero.
    + intros _ H1. apply eqb_one_inv in H1. now subst rate.
  - exists false, st. split; [reflexivity|]. split; [|split].
    + split; [discriminate|intros [H _]; discriminate].
    + reflexivity.
    + discriminate.
Qed.

Lemma should_trigger_iff_witness :
  PyFloat.is_draw (next_draw (sample_state true 1%float ∅)) = true
  /\ exists b st',
      _should_trigger 1%float (sample_state true 1%float ∅) = (Return b, st')
      /\ b = true.
Proof.
  split; [reflexivity|].
  destruct (should_trigger_iff 1%float (sample_state true 1%float ∅) eq_refl)
    as (b & st' & Heq & _ & _ & Hone).
  exists b, st'. split; [exact Heq|]. apply Hone; reflexivity.
Defined.

Example rate_zero_never_triggers :
  fst (_should_trigger 0%float (sample_state true 0%float ∅)) = Return false.
Proof. reflexivity. Qed.

Example rate_quarter_draw_half :
  fst (_should_trigger 0.25%float (sample_state true 0%float ∅)) = Return false.
Proof. reflexivity. Qed.

(** ** Splitting at the path separator *)

Section Split.

Variable sep : ascii.

Lemma contains_app (p q : string) :
  PyStr.contains sep (p +:+ String sep q) = true.
Proof.
  induction p as [|c p IH]; simpl.
  - now rewrite Ascii.eqb_refl.
  - rewrite IH. apply orb_true_r.
Qed.

Lemma contains_true_inv (s : string) :
  PyStr.contains sep s = true -> exists p q, s = p +:+ String sep q.
Proof.
  induction s as [|c s IH]; simpl; [discriminate|].
  destruct (Ascii.eqb c sep) eqn:Hc; simpl.
  - intros _. apply Ascii.eqb_eq in Hc. subst c. now exists EmptyString, s.
  - intros H. destruct (IH H) as (p & q & ->). now exists (String c p), q.
Qed.

(** The shape of a split: the string itself when it has no separator;
    otherwise at least two pieces, the last of which has no separator and
    follows the last separator of the string. *)
Lemma split_shape (s : string) :
  (PyStr.contains sep s = false /\ PyStr.split sep s = [s])
  \/ (PyStr.contains sep s = true
      /\ exists q qs p,
          PyStr.split sep s = q :: qs /\ qs <> []
          /\ s = p +:+ String sep (List.last qs EmptyString)
          /\ PyStr.contains sep (List.last qs EmptyString) = false).
Proof.
  induction s as [|c s IH]; [now left|].
  simpl. destruct (Ascii.eqb c sep) eqn:Hc; simpl.
  - right. split; [reflexivity|].
    apply Ascii.eqb_eq in Hc. subst c.
    destruct IH as [[Hno Hs]|(_ & q & qs & p & Hs & Hqs & Heq & Hno)].
    + exists EmptyString, [s], EmptyString. rewrite Hs. repeat split; easy.
    + exists EmptyString, (q :: qs), (String sep p). rewrite Hs.
      destruct qs as [|q' qs]; [easy|].
      repeat split; try easy. simpl in *. now rewrite Heq at 1.
  - destruct IH as [[Hno Hs]|(Hyes & q & qs & p & Hs & Hqs & Heq & Hno)].
    + left. now rewrite Hno, Hs.
    + right. split; [exact Hyes|].
      exists (String c q), qs, (String c p). rewrite Hs.
      repeat split; try easy. simpl. now rewrite Heq at 1.
Qed.

Lemma last_piece_cons (q : string) (qs : list string) :
  qs <> [] -> PyStr.last_piece (q :: qs) = List.last qs EmptyString.
Proof. destruct qs; easy. Qed.

End Split.

Lemma has_slash_contains (s : string) :
  has_slash s <-> PyStr.contains "/" s = true.
Proof.
  split.
  - intros (p & q & ->). apply contains_app.
  - apply contains_true_inv.
Qed.

Lemma no_slash_contains (s : string) :
  ~ has_slash s <-> PyStr.contains "/" s = false.
Proof.
  rewrite has_slash_contains. destruct (PyStr.contains "/" s); split; easy.
Qed.

(** What the code computes is the filename of the specification. *)
Lemma filename_of_is_filename (s : string) : is_filename s (filename_of s).
Proof.
  unfold filename_of, is_filename.
  destruct (split_shape "/" s) as [[Hno _]|(Hyes & q & qs & p & Hs & Hqs & Heq & Hno)].
  - rewrite Hno. left. split; [now apply no_slash_contains|reflexivity].
  - rewrite Hyes, Hs, last_piece_cons by exact Hqs.
    right. split; [now apply no_slash_contains|]. now exists p.
Qed.

(** A string has one decomposition around its last separator. *)
Lemma last_slash_unique (p p' f f' : string) :
  ~ has_slash f -> ~ has_slash f' ->
  p +:+ String "/" f = p' +:+ String "/" f' -> f = f'.
Proof.
  revert p'. induction p as [|c p IH]; intros p' Hf Hf' Heq.
  - destruct p' as [|c' p'];
      unfold String.append in Heq; fold String.append in Heq.
    + congruence.
    + injection Heq as <- ->. exfalso. apply Hf. now exists p', f'.
  - destruct p' as [|c' p'];
      unfold String.append in Heq; fold String.append in Heq.
    + injection Heq as -> <-. exfalso. apply Hf'. now exists p, f.
    + injection Heq as <- Heq. now apply (IH p').
Qed.

Lemma is_filename_unique (s f : string) :
  is_filename s f -> f = filename_of s.
Proof.
  intros Hf. pose proof (filename_of_is_filename s) as Hg.
  destruct Hf as [[Hs ->]|[Hf (p & Hp)]], Hg as [[Hs' ->]|[Hg (p' & Hp')]].
  - reflexivity.
  - exfalso. apply Hs. rewrite Hp'. now eexists _, _.
  - exfalso. apply Hs'. rewrite Hp. now eexists _, _.
  - eapply last_slash_unique; [exact Hf|exact Hg|]. now rewrite <- Hp, <- Hp'.
Qed.

(** ** Permanent-failure matching *)

Example filename_of_url : filename_of "http://host/path/a.jpg" = "a.jpg".
Proof. reflexivity. Qed.

Example filename_of_bare : filename_of "a.jpg" = "a.jpg".
Proof. reflexivity. Qed.

Example filename_of_trailing_slash : filename_of "http://host/dir/" = "".
Proof. reflexivity. Qed.

Lemma permanent_verdict_iff (o : FaultInjector) (s : string) :
  enabled o = true ->
  permanent_error_images o <> ∅ ->
  permanent_verdict o s = true <->
  s ∈ permanent_error_images o \/ filename_of s ∈ permanent_error_images o.
Proof.
  intros Hon Hne. unfold permanent_verdict. rewrite Hon.
  rewrite (bool_decide_eq_false_2 _ Hne). cbn [negb orb].
  rewrite orb_true_iff, !bool_decide_eq_true. reflexivity.
Qed.

Lemma permanent_verdict_on (o : FaultInjector) (s : string) :
  enabled o = true ->
  permanent_verdict o s
  = bool_decide (s ∈ permanent_error_images o)
    || bool_decide (filename_of s ∈ permanent_error_images o).
Proof.
  intros Hon. unfold permanent_verdict. rewrite Hon. cbn [negb orb].
  destruct (bool_decide (permanent_error_images o = ∅)) eqn:Hempty; [|reflexivity].
  apply bool_decide_eq_true in Hempty. rewrite Hempty.
  symmetry. apply orb_false_intro; apply bool_decide_eq_false, not_elem_of_empty.
Qed.

Lemma singleton_not_empty (x : string) : ({[ x ]} : gset string) <> ∅.
Proof.
  intros Hbad. apply (not_elem_of_empty (C:=gset string) x).
  rewrite <- Hbad. now apply elem_of_singleton.
Qed.

(** C4. Let [f] be the filename of the identifier [s].  On an enabled
    injector with a non-empty permanent-failure set the check answers true
    exactly when [s] or [f] is in the set; it answers false when the
    injector is disabled or the set is empty.  With the set [{"a.jpg"}],
    ["a.jpg"] and ["http://host/path/a.jpg"] match and ["b.jpg"] does
    not. *)
Theorem permanent_matching (st : State) (s f : string) :
  is_filename s f ->
  exists b,
    _is_permanent_error_image s st = (Return b, st)
    /\ (enabled (self st) = true ->
        permanent_error_images (self st) <> ∅ ->
        (b = true <->
         s ∈ permanent_error_images (self st)
         \/ f ∈ permanent_error_images (self st)))
    /\ (enabled (self st) = false \/ permanent_error_images (self st) = ∅ ->
        b = false)
    /\ (enabled (self st) = true ->
        permanent_error_images (self st) = {[ "a.jpg" ]} ->
        (s = "a.jpg" \/ s = "http://host/path/a.jpg" -> b = true)
        /\ (s = "b.jpg" -> b = false)).
Proof.
  intros Hf. apply is_filename_unique in Hf. subst f.
  exists (permanent_verdict (self st) s).
  split; [apply is_permanent_error_image_eq|].
  pose proof (permanent_verdict_iff (self st) s) as Hiff.
  split; [exact Hiff|]. split.
  - unfold permanent_verdict. intros [Hoff|Hempty].
    + now rewrite Hoff.
    + rewrite (bool_decide_eq_true_2 _ Hempty). now rewrite orb_true_r.
  - intros Hon Hset.
    assert (Hne : permanent_error_images (self st) <> ∅)
      by (rewrite Hset; apply singleton_not_empty).
    specialize (Hiff Hon Hne). rewrite Hset in Hiff. split.
    + intros [->| ->]; apply Hiff.
      * left. now apply elem_of_singleton.
      * right. now apply elem_of_singleton.
    + intros ->. destruct (permanent_verdict (self st) "b.jpg"); [|reflexivity].
      destruct (proj1 Hiff eq_refl) as [H|H];
        apply elem_of_singleton in H; discriminate H.
Qed.

Lemma permanent_matching_witness :
  is_filename "http://host/path/a.jpg" "a.jpg"
  /\ fst (_is_permanent_error_image "http://host/path/a.jpg"
            (sample_state true 0%float {[ "a.jpg" ]})) = Return true.
Proof.
  assert (Hf : is_filename "http://host/path/a.jpg" "a.jpg")
    by exact (filename_of_is_filename "http://host/path/a.jpg").
  split; [exact Hf|].
  destruct (permanent_matching (sample_state true 0%float {[ "a.jpg" ]})
              "http://host/path/a.jpg" "a.jpg" Hf)
    as (b & Heq & _ & _ & Hex).
  rewrite Heq. simpl. f_equal.
  apply (Hex eq_refl eq_refl). now right.
Defined.

Example permanent_match_bare :
  fst (_is_permanent_error_image "a.jpg" (sample_state true 0%float {[ "a.jpg" ]}))
  = Return true.
Proof. vm_compute. reflexivity. Qed.

Example permanent_match_other :
  fst (_is_permanent_error_image "b.jpg" (sample_state true 0%float {[ "a.jpg" ]}))
  = Return false.
Proof. vm_compute. reflexivity. Qed.

Example permanent_match_disabled :
  fst (_is_permanent_error_image "a.jpg" (sample_state false 0%float {[ "a.jpg" ]}))
  = Return false.
Proof. vm_compute. reflexivity. Qed.

(** ** The two-stage image checks *)

Lemma maybe_image_404_eq (image_url : string) (st : State) :
  maybe_image_404 image_url st =
    if permanent_verdict (self st) image_url
    then (Return true, logged ERROR (PermanentImageError404 image_url) st)
    else drawn (image_404_rate (self st)) (SimulatedImage404 image_url) st.
Proof.
  unfold maybe_image_404. run. rewrite is_permanent_error_image_eq.
  destruct (permanent_verdict (self st) image_url); [reflexivity|].
  rewrite should_trigger_eq. unfold drawn.
  destruct (enabled (self st)); [|reflexivity].
  destruct (next_draw st <? _)%float; reflexivity.
Qed.

Lemma maybe_corrupt_image_eq (image_url : string) (st : State) :
  maybe_corrupt_image image_url st =
    if permanent_verdict (self st) image_url
    then (Return true, logged ERROR (PermanentImageErrorCorrupt image_url) st)
    else drawn (corrupt_image_rate (self st)) (SimulatedCorruptImage image_url) st.
Proof.
  unfold maybe_corrupt_image. run. rewrite is_permanent_error_image_eq.
  destruct (permanent_verdict (self st) image_url); [reflexivity|].
  rewrite should_trigger_eq. unfold drawn.
  destruct (enabled (self st)); [|reflexivity].
  destruct (next_draw st <? _)%float; reflexivity.
Qed.

Lemma drawn_outcome (rate : float) (ev : LogEvent) (st : State) :
  fst (drawn rate ev st) = fst (_should_trigger rate st)
  /\ rng (snd (drawn rate ev st)) = rng (snd (_should_trigger rate st)).
Proof.
  rewrite should_trigger_eq. unfold drawn.
  destruct (enabled (self st)); [|now split].
  destruct (next_draw st <? rate)%float; now split.
Qed.

(** C5. On an enabled injector [maybe_image_404] and [maybe_corrupt_image]
    check in two stages.  Let [f] be the filename of the identifier.  When
    the identifier or [f] is in the permanent-failure set the result is
    true, whatever the rate and the draw, and the generator is not used.
    Otherwise the generator is used once and the result is true exactly
    when the draw is strictly below [image_404_rate], respectively
    [corrupt_image_rate]; this is what [_should_trigger] answers on that
    rate.  With corrupt rate 0.0 and the set [{"y.jpg"}],
    [maybe_corrupt_image] is true on ["y.jpg"] and false on ["z.jpg"]. *)
Theorem two_stage_check (st : State) (image_url f : string) :
  enabled (self st) = true ->
  is_filename image_url f ->
  let listed :=
    image_url ∈ permanent_error_images (self st)
    \/ f ∈ permanent_error_images (self st) in
  (listed ->
   maybe_image_404 image_url st
     = (Return true, logged ERROR (PermanentImageError404 image_url) st)
   /\ maybe_corrupt_image image_url st
     = (Return true, logged ERROR (PermanentImageErrorCorrupt image_url) st)
   /\ rng (snd (maybe_image_404 image_url st)) = rng st
   /\ rng (snd (maybe_corrupt_image image_url st)) = rng st)
  /\ (~ listed ->
      maybe_image_404 image_url st
        = (if (next_draw st <? image_404_rate (self st))%float
           then (Return true,
                 logged ERROR (SimulatedImage404 image_url) (with_rng advance st))
           else (Return false, with_rng advance st))
      /\ maybe_corrupt_image image_url st
        = (if (next_draw st <? corrupt_image_rate (self st))%float
           then (Return true,
                 logged ERROR (SimulatedCorruptImage image_url) (with_rng advance st))
           else (Return false, with_rng advance st))
      /\ fst (maybe_image_404 image_url st)
        = Return (next_draw st <? image_404_rate (self st))%float
      /\ fst (maybe_corrupt_image image_url st)
        = Return (next_draw st <? corrupt_image_rate (self st))%float
      /\ rng (snd (maybe_image_404 image_url st)) = advance (rng st)
      /\ rng (snd (maybe_corrupt_image image_url st)) = advance (rng st))
  /\ (fst (_is_permanent_error_image image_url st) = Return true <-> listed)
  /\ (fst (_is_permanent_error_image image_url st) = Return false <-> ~ listed)
  /\ (~ listed ->
      fst (maybe_image_404 image_url st)
        = fst (_should_trigger (image_404_rate (self st)) st)
      /\ rng (snd (maybe_image_404 image_url st))
        = rng (snd (_should_trigger (image_404_rate (self st)) st))
      /\ fst (maybe_corrupt_image image_url st)
        = fst (_should_trigger (corrupt_image_rate (self st)) st)
      /\ rng (snd (maybe_corrupt_image image_url st))
        = rng (snd (_should_trigger (corrupt_image_rate (self st)) st)))
  /\ (corrupt_image_rate (self st) = 0%float ->
      permanent_error_images (self st) = {[ "y.jpg" ]} ->
      PyFloat.is_draw (next_draw st) = true ->
      fst (maybe_corrupt_image "y.jpg" st) = Return true
      /\ fst (maybe_corrupt_image "z.jpg" st) = Return false).
Proof.
  intros Hon Hf. cbn zeta. apply is_filename_unique in Hf. subst f.
  assert (Hv : permanent_verdict (self st) image_url = true <->
               image_url ∈ permanent_error_images (self st)
               \/ filename_of image_url ∈ permanent_error_images (self st)).
  { rewrite (permanent_verdict_on _ _ Hon), orb_true_iff, !bool_decide_eq_true.
    reflexivity. }
  assert (Hdrawn : forall rate ev,
             drawn rate ev st
             = (if (next_draw st <? rate)%float
                then (Return true, logged ERROR ev (with_rng advance st))
                else (Return false, with_rng advance st))).
  { intros rate ev. unfold drawn. now rewrite Hon. }
  split; [|split; [|split; [|split; [|split]]]].
  - intros Hlisted. apply Hv in Hlisted.
    rewrite maybe_image_404_eq, maybe_corrupt_image_eq, Hlisted. now repeat split.
  - intros Hnot.
    assert (Hp : permanent_verdict (self st) image_url = false).
    { destruct (permanent_verdict (self st) image_url); [|reflexivity].
      destruct Hnot. now apply Hv. }
    rewrite maybe_image_404_eq, maybe_corrupt_image_eq, Hp, !Hdrawn.
    destruct (next_draw st <? image_404_rate (self st))%float,
      (next_draw st <? corrupt_image_rate (self st))%float; now repeat split.
  - rewrite is_permanent_error_image_eq. cbn [fst]. rewrite <- Hv.
    split; [now intros [= ->]|now intros ->].
  - rewrite is_permanent_error_image_eq. cbn [fst]. rewrite <- Hv.
    destruct (permanent_verdict (self st) image_url); split;
      try easy; try (intros H; now destruct H).
  - intros Hnot.
    assert (Hp : permanent_verdict (self st) image_url = false).
    { destruct (permanent_verdict (self st) image_url); [|reflexivity].
      destruct Hnot. now apply Hv. }
    rewrite maybe_image_404_eq, maybe_corrupt_image_eq, Hp.
    pose proof (drawn_outcome (image_404_rate (self st))
                  (SimulatedImage404 image_url) st) as [H1 H2].
    pose proof (drawn_outcome (corrupt_image_rate (self st))
                  (SimulatedCorruptImage image_url) st) as [H3 H4].
    now repeat split.
  - intros Hrate Hset Hdraw.
    assert (Hne : permanent_error_images (self st) <> ∅)
      by (rewrite Hset; apply singleton_not_empty).
    pose proof (permanent_verdict_iff (self st) "y.jpg" Hon Hne) as Hy.
    pose proof (permanent_verdict_iff (self st) "z.jpg" Hon Hne) as Hz.
    rewrite Hset in Hy, Hz. rewrite !maybe_corrupt_image_eq. split.
    + assert (permanent_verdict (self st) "y.jpg" = true) as ->; [|reflexivity].
      apply Hy. left. now apply elem_of_singleton.
    + assert (permanent_verdict (self st) "z.jpg" = false) as ->.
      { destruct (permanent_verdict (self st) "z.jpg"); [|reflexivity].
        destruct (proj1 Hz eq_refl) as [H|H];
          apply elem_of_singleton in H; discriminate H. }
      unfold drawn. rewrite Hon, Hrate.
      apply is_draw_inv in Hdraw. destruct Hdraw as [Hlo _].
      now rewrite (draw_not_below_zero _ 0%float Hlo eq_refl).
Qed.

Lemma two_stage_check_witness :
  enabled (self (sample_state true 0%float {[ "y.jpg" ]})) = true
  /\ is_filename "http://host/y.jpg" "y.jpg"
  /\ maybe_image_404 "http://host/y.jpg" (sample_state true 0%float {[ "y.jpg" ]})
     = (Return true,
        logged ERROR (PermanentImageError404 "http://host/y.jpg")
          (sample_state true 0%float {[ "y.jpg" ]}))
  /\ fst (maybe_corrupt_image "y.jpg" (sample_state true 0%float {[ "y.jpg" ]}))
     = Return true
  /\ fst (maybe_corrupt_image "z.jpg" (sample_state true 0%float {[ "y.jpg" ]}))
     = Return false.
Proof.
  assert (Hf : is_filename "http://host/y.jpg" "y.jpg")
    by exact (filename_of_is_filename "http://host/y.jpg").
  pose proof (two_stage_check (sample_state true 0%float {[ "y.jpg" ]})
                "http://host/y.jpg" "y.jpg" eq_refl Hf)
    as (Hlisted & _ & _ & _ & _ & Hex).
  assert (Hin : "y.jpg" ∈ ({[ "y.jpg" ]} : gset string))
    by (apply elem_of_singleton_2; reflexivity).
  split; [reflexivity|]. split; [exact Hf|]. split.
  - exact (proj1 (Hlisted (or_intror Hin))).
  - apply Hex; reflexivity.
Defined.

Example image_404_unlisted_draw_below_rate :
  maybe_image_404 "x.jpg" (sample_state true 0.75%float {[ "y.jpg" ]})
  = (Return true,
     logged ERROR (SimulatedImage404 "x.jpg")
       (with_rng advance (sample_state true 0.75%float {[ "y.jpg" ]}))).
Proof. vm_compute. reflexivity. Qed.

Example image_404_unlisted_draw_above_rate :
  maybe_image_404 "x.jpg" (sample_state true 0.25%float {[ "y.jpg" ]})
  = (Return false, with_rng advance (sample_state true 0.25%float {[ "y.jpg" ]})).
Proof. vm_compute. reflexivity. Qed.

Example image_404_rate_one :
  fst (maybe_image_404 "x.jpg" (sample_state true 1%float ∅)) = Return true.
Proof. vm_compute. reflexivity. Qed.

(** ** The raising operations *)

(** C6. [raise_image_error] never returns: it raises, leaving the state as
    it was.  The kind ["404"] raises an [HTTPError] whose response has
    status 404, ["corrupt"] a [ValueError], ["timeout"] a [Timeout], every
    other string a [RuntimeError]; the four classes differ from one
    another. *)
Theorem raise_image_error_signals (image_url error_type : string) (st : State) :
  exists e,
    raise_image_error image_url error_type st = (Raise e, st)
    /\ (error_type = "404" ->
        exn_class e = HTTPError
        /\ exn_response e = Some {| status_code := Some 404%Z |})
    /\ (error_type = "corrupt" -> exn_class e = ValueError)
    /\ (error_type = "timeout" -> exn_class e = Timeout)
    /\ (error_type <> "404" -> error_type <> "corrupt" ->
        error_type <> "timeout" -> exn_class e = RuntimeError)
    /\ NoDup [HTTPError; ValueError; Timeout; RuntimeError].
Proof.
  unfold raise_image_error, raise.
  destruct (String.eqb_spec error_type "404") as [->|H404].
  { eexists. split; [reflexivity|]. repeat split; try easy.
    apply (bool_decide_unpack _). reflexivity. }
  destruct (String.eqb_spec error_type "corrupt") as [->|Hcor].
  { eexists. split; [reflexivity|]. repeat split; try easy.
    apply (bool_decide_unpack _). reflexivity. }
  destruct (String.eqb_spec error_type "timeout") as [->|Htim].
  { eexists. split; [reflexivity|]. repeat split; try easy.
    apply (bool_decide_unpack _). reflexivity. }
  eexists. split; [reflexivity|]. repeat split; try easy.
  apply (bool_decide_unpack _). reflexivity.
Qed.

Lemma raise_image_error_signals_witness :
  "unknown" <> "404" /\ "unknown" <> "corrupt" /\ "unknown" <> "timeout"
  /\ exists e,
      raise_image_error "x.jpg" "unknown" (sample_state false 0%float ∅)
        = (Raise e, sample_state false 0%float ∅)
      /\ exn_class e = RuntimeError.
Proof.
  assert (H1 : "unknown" <> "404") by discriminate.
  assert (H2 : "unknown" <> "corrupt") by discriminate.
  assert (H3 : "unknown" <> "timeout") by discriminate.
  repeat split; try assumption.
  destruct (raise_image_error_signals "x.jpg" "unknown"
              (sample_state false 0%float ∅))
    as (e & Heq & _ & _ & _ & Hother & _).
  exists e. split; [exact Heq|]. now apply Hother.
Defined.

Example raise_image_error_404 :
  fst (raise_image_error "x.jpg" "404" (sample_state true 0%float ∅))
  = Raise {| exn_class := HTTPError;
             exn_message := "404 Not Found";
             exn_response := Some {| status_code := Some 404%Z |} |}.
Proof. reflexivity. Qed.

Example raise_image_error_corrupt :
  fst (raise_image_error "x.jpg" "corrupt" (sample_state true 0%float ∅))
  = Raise (mk_exn ValueError "Simulated corrupt image data for x.jpg").
Proof. reflexivity. Qed.

Lemma next_index_lt (n : nat) (st : State) : (0 < n)%nat -> (next_index n st < n)%nat.
Proof. intros Hn. unfold next_index. apply Nat.mod_upper_bound. lia. Qed.

Lemma random_choice_eq {A} (seq : list A) (st : State) (x : A) :
  seq !! next_index (length seq) st = Some x ->
  random_choice seq st = (Return x, with_rng advance st).
Proof. unfold random_choice, next_index. now intros ->. Qed.



Example raise_network_error_first :
  fst (raise_network_error "API call" (sample_state false 0%float ∅))
  = Raise (mk_exn ConnectionError "Simulated connection error during API call").
Proof. reflexivity. Qed.

(** ** Worker crash *)

(** C8, as the code has it.  [maybe_crash_worker] exits the process
    exactly when the injector is enabled and the draw is strictly below
    [worker_crash_rate]; it then has logged the crash and exits with
    status 1.  A disabled injector returns and leaves the whole state
    untouched.  An enabled injector whose draw does not trigger returns
    with the attributes, the environment and the log as they were, and
    with the generator moved past the one draw it consumed: an enabled
    injector uses the generator once on every call. *)
Theorem maybe_crash_worker_outcome (context : string) (st : State) :
  let trigger :=
    enabled (self st) && (next_draw st <? worker_crash_rate (self st))%float in
  fst (_should_trigger (worker_crash_rate (self st)) st) = Return trigger
  /\ ((exists status, fst (maybe_crash_worker context st) = Exit status)
      <-> trigger = true)
  /\ (fst (maybe_crash_worker context st) = Return tt <-> trigger = false)
  /\ (trigger = true ->
      maybe_crash_worker context st
      = (Exit 1%Z, logged ERROR (SimulatedWorkerCrash context) (with_rng advance st)))
  /\ (trigger = false ->
      maybe_crash_worker context st
      = (Return tt, if enabled (self st) then with_rng advance st else st)
      /\ self (snd (maybe_crash_worker context st)) = self st
      /\ environ (snd (maybe_crash_worker context st)) = environ st
      /\ log (snd (maybe_crash_worker context st)) = log st)
  /\ (enabled (self st) = false -> maybe_crash_worker context st = (Return tt, st))
  /\ (enabled (self st) = true ->
      rng (snd (maybe_crash_worker context st)) = advance (rng st)
      /\ snd (maybe_crash_worker context st) <> st).
Proof.
  assert (Hmoved : forall s : State, rng s = advance (rng st) -> s <> st).
  { intros s Hs Heq. rewrite Heq in Hs.
    apply (f_equal cursor) in Hs. simpl in Hs. lia. }
  cbn zeta. unfold maybe_crash_worker. run. rewrite should_trigger_eq.
  destruct (enabled (self st)) eqn:Hon; cbn [andb fst snd].
  - destruct (next_draw st <? worker_crash_rate (self st))%float eqn:Hlt;
      cbn [fst snd].
    + split; [reflexivity|]. split; [split; [reflexivity|intros _; now exists 1%Z]|].
      split; [split; discriminate|]. split; [reflexivity|].
      split; [discriminate|]. split; [discriminate|].
      intros _. split; [reflexivity|now apply Hmoved].
    + split; [reflexivity|]. split; [split; [intros [n H]; discriminate|discriminate]|].
      split; [split; reflexivity|]. split; [discriminate|].
      split; [now repeat split|]. split; [discriminate|].
      intros _. split; [reflexivity|now apply Hmoved].
  - split; [reflexivity|]. split; [split; [intros [n H]; discriminate|discriminate]|].
    split; [split; reflexivity|]. split; [discriminate|].
    split; [now repeat split|]. split; [reflexivity|discriminate].
Qed.

Lemma maybe_crash_worker_outcome_witness :
  (enabled (self (sample_state true 1%float ∅))
   && (next_draw (sample_state true 1%float ∅)
       <? worker_crash_rate (self (sample_state true 1%float ∅)))%float) = true
  /\ maybe_crash_worker "Processing job 123" (sample_state true 1%float ∅)
     = (Exit 1%Z,
        logged ERROR (SimulatedWorkerCrash "Processing job 123")
          (with_rng advance (sample_state true 1%float ∅))).
Proof.
  split; [reflexivity|].
  apply (maybe_crash_worker_outcome "Processing job 123"
           (sample_state true 1%float ∅)).
  reflexivity.
Defined.

(** C8, as the claim words it, fails.  On an enabled injector with rate
    0.25 the draw 0.5 does not trigger and [maybe_crash_worker] returns,
    yet the state is not what it was: the generator has moved on, and
    [maybe_network_error], which answered false before the call, answers
    true after it. *)
Lemma maybe_crash_worker_consumes_a_draw :
  (enabled (self stepping_state)
   && (next_draw stepping_state <? worker_crash_rate (self stepping_state))%float)
  = false
  /\ fst (maybe_crash_worker "job" stepping_state) = Return tt
  /\ snd (maybe_crash_worker "job" stepping_state) <> stepping_state
  /\ cursor (rng (snd (maybe_crash_worker "job" stepping_state))) = 1%nat
  /\ fst (maybe_network_error "API call" stepping_state) = Return false
  /\ fst (maybe_network_error "API call"
            (snd (maybe_crash_worker "job" stepping_state)))
     = Return true.
Proof.
  split; [reflexivity|]. split; [reflexivity|]. split.
  - intros Heq. apply (f_equal (fun s => cursor (rng s))) in Heq.
    vm_compute in Heq. discriminate Heq.
  - split; [reflexivity|]. split; reflexivity.
Qed.

Example maybe_crash_worker_no_trigger :
  maybe_crash_worker "job" (sample_state true 0.25%float ∅)
  = (Return tt, with_rng advance (sample_state true 0.25%float ∅)).
Proof. reflexivity. Qed.

(** ** Independence of the configuration *)

(** C10. What [raise_network_error], [raise_image_error] and
    [get_corrupt_image_data] do does not depend on the attributes of the
    injector: two states with the same generator give the same exception,
    respectively the same bytes, whatever their injectors are.  The two
    [raise_*] operations raise on every state, that of a disabled injector
    with all rates 0.0 included. *)
Theorem raising_ignores_configuration
  (st1 st2 : State) (operation image_url error_type : string) :
  rng st1 = rng st2 ->
  fst (raise_network_error operation st1) = fst (raise_network_error operation st2)
  /\ fst (raise_image_error image_url error_type st1)
     = fst (raise_image_error image_url error_type st2)
  /\ fst (get_corrupt_image_data st1) = fst (get_corrupt_image_data st2)
  /\ (exists e, fst (raise_network_error operation st1) = Raise e)
  /\ (exists e, fst (raise_image_error image_url error_type st1) = Raise e)
  /\ fst (get_corrupt_image_data st1)
     = Return (list_byte_of_string "CORRUPT_IMAGE_DATA_NOT_VALID_JPEG_OR_PNG").
Proof.
  intros Hrng.
  assert (Hnet : forall st, exists e,
             error_types operation !! next_index 3 st = Some e
             /\ fst (raise_network_error operation st) = Raise e).
  { intros st. pose proof (next_index_lt 3 st ltac:(lia)) as Hlt.
    assert (exists e, error_types operation !! next_index 3 st = Some e)
      as [e He].
    { destruct (next_index 3 st) as [|[|[|i]]]; [| | |lia]; eexists; reflexivity. }
    exists e. split; [exact He|]. unfold raise_network_error. run.
    now rewrite (random_choice_eq (error_types operation) st e He). }
  assert (Himg : forall st, exists e,
             raise_image_error image_url error_type st = (Raise e, st)).
  { intros st. unfold raise_image_error, raise.
    repeat (match goal with |- context [String.eqb ?a ?b] =>
              destruct (String.eqb a b) end); eexists; reflexivity. }
  destruct (Hnet st1) as (e1 & Hp1 & Hr1), (Hnet st2) as (e2 & Hp2 & Hr2).
  assert (e1 = e2) as <-.
  { unfold next_index in Hp1, Hp2. rewrite Hrng in Hp1. congruence. }
  split; [congruence|]. split.
  { unfold raise_image_error, raise.
    repeat (match goal with |- context [String.eqb ?a ?b] =>
              destruct (String.eqb a b) end); reflexivity. }
  split; [reflexivity|]. split; [now exists e1|]. split; [|reflexivity].
  destruct (Himg st1) as [e He]. exists e. now rewrite He.
Qed.

Lemma raising_ignores_configuration_witness :
  rng (sample_state false 0%float ∅) = rng (sample_state true 1%float {[ "a.jpg" ]})
  /\ fst (raise_network_error "API call" (sample_state false 0%float ∅))
     = fst (raise_network_error "API call" (sample_state true 1%float {[ "a.jpg" ]}))
  /\ exists e,
      fst (raise_image_error "x.jpg" "404" (sample_state false 0%float ∅)) = Raise e.
Proof.
  split; [reflexivity|].
  pose proof (raising_ignores_configuration
                (sample_state false 0%float ∅)
                (sample_state true 1%float {[ "a.jpg" ]})
                "API call" "x.jpg" "404" eq_refl) as H.
  split; apply H.
Defined.

(** ** The attributes are never assigned after construction *)

Lemma observe_snd {A} (r : Outcome A * State) : snd (observe r) = snd r.
Proof. destruct r as [[a|e|n] st]; reflexivity. Qed.

Lemma drawn_self (rate : float) (ev : LogEvent) (st : State) :
  self (snd (drawn rate ev st)) = self st.
Proof.
  unfold drawn. destruct (enabled (self st)); [|reflexivity].
  destruct (next_draw st <? rate)%float; reflexivity.
Qed.

Lemma simple_query_eq (rate : float) (ev : LogEvent) (st : State) :
  (t ← _should_trigger rate; if (t : bool) then logger_error ev;; mret true
                             else mret false) st
  = drawn rate ev st.
Proof.
  run. rewrite should_trigger_eq. unfold drawn.
  destruct (enabled (self st)); [|reflexivity].
  destruct (next_draw st <? rate)%float; reflexivity.
Qed.

Lemma maybe_network_error_eq (operation : string) (st : State) :
  maybe_network_error operation st
  = drawn (network_error_rate (self st)) (SimulatedNetworkError operation) st.
Proof. unfold maybe_network_error. rewrite <- simple_query_eq. reflexivity. Qed.

Lemma maybe_transient_error_eq (operation : string) (st : State) :
  maybe_transient_error operation st
  = drawn (transient_error_rate (self st)) (SimulatedTransientError operation) st.
Proof. unfold maybe_transient_error. rewrite <- simple_query_eq. reflexivity. Qed.

Lemma perform_self (c : Call) (st : State) : self (snd (perform c st)) = self st.
Proof.
  destruct c; unfold perform; rewrite observe_snd.
  - unfold maybe_crash_worker. run. rewrite should_trigger_eq.
    destruct (enabled (self st)); [|reflexivity].
    destruct (next_draw st <? _)%float; reflexivity.
  - rewrite maybe_network_error_eq. apply drawn_self.
  - rewrite maybe_image_404_eq.
    destruct (permanent_verdict _ _); [reflexivity|apply drawn_self].
  - rewrite maybe_corrupt_image_eq.
    destruct (permanent_verdict _ _); [reflexivity|apply drawn_self].
  - rewrite maybe_transient_error_eq. apply drawn_self.
  - rewrite should_trigger_eq. destruct (enabled (self st)); reflexivity.
  - now rewrite is_permanent_error_image_eq.
  - unfold raise_network_error, random_choice. run.
    destruct (error_types operation !! _); reflexivity.
  - unfold raise_image_error, raise.
    repeat (match goal with |- context [String.eqb ?a ?b] =>
              destruct (String.eqb a b) end); reflexivity.
  - reflexivity.
  - unfold log_statistics. run. destruct (negb (enabled (self st))); reflexivity.
Qed.

Lemma run_calls_self (cs : list Call) (st : State) (o : FaultInjector) :
  self st = o -> Forall (fun st' => self st' = o) (run_calls cs st).
Proof.
  revert st. induction cs as [|c cs IH]; intros st Hst; simpl; [constructor|].
  pose proof (perform_self c st) as Hc.
  destruct (perform c st) as [[ | e | n] st']; simpl in Hc;
    constructor; try congruence; try constructor; apply IH; congruence.
Qed.

(** C9. Whatever calls the host code makes on an injector, and in whatever
    order, after each call the object holds the attributes it held before:
    [enabled], the five rates and the permanent-failure set. *)
Theorem configuration_is_immutable (cs : list Call) (st : State) :
  Forall (fun st' =>
            self st' = self st
            /\ enabled (self st') = enabled (self st)
            /\ worker_crash_rate (self st') = worker_crash_rate (self st)
            /\ network_error_rate (self st') = network_error_rate (self st)
            /\ corrupt_image_rate (self st') = corrupt_image_rate (self st)
            /\ image_404_rate (self st') = image_404_rate (self st)
            /\ transient_error_rate (self st') = transient_error_rate (self st)
            /\ permanent_error_images (self st') = permanent_error_images (self st))
         (run_calls cs st)
  /\ match cs with
     | [] => run_calls cs st = []
     | c :: _ => head (run_calls cs st) = Some (snd (perform c st))
     end.
Proof.
  split.
  - eapply Forall_impl; [apply (run_calls_self cs st (self st) eq_refl)|].
    intros st' ->. now repeat split.
  - destruct cs as [|c cs]; [reflexivity|]. simpl.
    destruct (perform c st) as [[ | e | n] st']; reflexivity.
Qed.

Example run_calls_sample :
  map self
    (run_calls [CallMaybeImage404 "a.jpg"; CallRaiseNetworkError "API call";
                CallLogStatistics; CallMaybeCrashWorker "job";
                CallMaybeNetworkError "never runs"]
       (sample_state true 1%float {[ "a.jpg" ]}))
  = [sample_injector true 1%float {[ "a.jpg" ]};
     sample_injector true 1%float {[ "a.jpg" ]};
     sample_injector true 1%float {[ "a.jpg" ]};
     sample_injector true 1%float {[ "a.jpg" ]}].
Proof. vm_compute. reflexivity. Qed.

(** ** Construction *)

Section ConstructionFacts.

Variable float_of_str : string -> option float.
Variable str_of_float : float -> string.

Lemma spec_rate_in_range (converted : option float) (d : float) :
  PyFloat.in_unit_range d = true ->
  PyFloat.in_unit_range (spec_rate converted d) = true.
Proof.
  intros Hd. destruct converted as [r|]; simpl; [|exact Hd].
  destruct (PyFloat.in_unit_range r) eqn:Hr; [exact Hr|exact Hd].
Qed.

(** One rate parse: its result, its diagnostic, and what it leaves alone. *)
Lemma parse_rate_run (env_var : string) (d : float) (st : State) :
  let converted :=
    float_of_str (rate_input str_of_float (environ st) env_var d) in
  exists st',
    _parse_rate float_of_str str_of_float env_var d st
    = (Return (spec_rate converted d), st')
    /\ self st' = self st
    /\ environ st' = environ st
    /\ rng st' = rng st
    /\ log st'
       = log st ++ rate_diagnostic env_var (environ st !! env_var) converted d.
Proof.
  cbn zeta. unfold _parse_rate, try_except, float_, rate_input. run.
  destruct (float_of_str _) as [r|]; cbn.
  - destruct (PyFloat.in_unit_range r); cbn.
    + eexists. split; [reflexivity|]. cbn. now rewrite app_nil_r.
    + eexists. split; [reflexivity|]. now cbn.
  - eexists. split; [reflexivity|]. now cbn.
Qed.

Lemma parse_rate_step (env_var : string) (st : State) (env : gmap string string) :
  environ st = env ->
  exists st',
    _parse_rate float_of_str str_of_float env_var 0%float st
    = (Return (configured_rate float_of_str str_of_float env env_var), st')
    /\ self st' = self st
    /\ environ st' = env.
Proof.
  intros <-.
  destruct (parse_rate_run env_var 0%float st) as (st' & Heq & Hself & Henv & _).
  exists st'. now repeat split.
Qed.

Ltac parse_step env :=
  match goal with
  | |- context [_parse_rate ?f ?g ?v ?d ?s] =>
      let st' := fresh "st" in
      let Heq := fresh "Heq" in
      let Hself := fresh "Hself" in
      let Henv := fresh "Henv" in
      destruct (parse_rate_step v s env) as (st' & Heq & Hself & Henv);
      [first [reflexivity|assumption]|];
      rewrite Heq; clear Heq; cbn beta iota
  end.

Lemma init_run (st : State) :
  exists st',
    __init__ float_of_str str_of_float st = (Return tt, st')
    /\ self st' = configured float_of_str str_of_float (environ st).
Proof.
  unfold __init__. run.
  do 5 parse_step (environ st).
  cbn [environ with_self]. rewrite Henv3.
  assert (Hattrs :
    forall images,
      set_permanent_error_images images
        (set_transient_error_rate
           (configured_rate float_of_str str_of_float (environ st)
              "AMI_TEST_TRANSIENT_ERROR_RATE")
           (self st4))
      = {| enabled := enabled (configured float_of_str str_of_float (environ st));
           worker_crash_rate :=
             configured_rate float_of_str str_of_float (environ st)
               "AMI_TEST_WORKER_CRASH_RATE";
           network_error_rate :=
             configured_rate float_of_str str_of_float (environ st)
               "AMI_TEST_NETWORK_ERROR_RATE";
           corrupt_image_rate :=
             configured_rate float_of_str str_of_float (environ st)
               "AMI_TEST_CORRUPT_IMAGE_RATE";
           image_404_rate :=
             configured_rate float_of_str str_of_float (environ st)
               "AMI_TEST_IMAGE_404_RATE";
           transient_error_rate :=
             configured_rate float_of_str str_of_float (environ st)
               "AMI_TEST_TRANSIENT_ERROR_RATE";
           permanent_error_images := images |}).
  { intros images. unfold set_permanent_error_images, set_transient_error_rate.
    cbn [enabled worker_crash_rate network_error_rate corrupt_image_rate
         image_404_rate transient_error_rate permanent_error_images].
    rewrite Hself3. cbn [self with_self]. unfold set_image_404_rate.
    cbn [enabled worker_crash_rate network_error_rate corrupt_image_rate
         image_404_rate transient_error_rate permanent_error_images].
    rewrite Hself2. cbn [self with_self]. unfold set_corrupt_image_rate.
    cbn [enabled worker_crash_rate network_error_rate corrupt_image_rate
         image_404_rate transient_error_rate permanent_error_images].
    rewrite Hself1. cbn [self with_self]. unfold set_network_error_rate.
    cbn [enabled worker_crash_rate network_error_rate corrupt_image_rate
         image_404_rate transient_error_rate permanent_error_images].
    rewrite Hself0. cbn [self with_self]. unfold set_worker_crash_rate.
    cbn [enabled worker_crash_rate network_error_rate corrupt_image_rate
         image_404_rate transient_error_rate permanent_error_images].
    rewrite Hself. reflexivity. }
  unfold configured at 1. cbn zeta.
  destruct (PyStr.truthy _); cbn beta iota;
    match goal with |- context [negb ?b] => destruct (negb b) end;
    (eexists; split; [reflexivity|]);
    cbn [self with_self with_log];
    rewrite Hattrs; reflexivity.
Qed.

Lemma configured_rate_in_range (env : gmap string string) (env_var : string) :
  PyFloat.in_unit_range (configured_rate float_of_str str_of_float env env_var)
  = true.
Proof. apply spec_rate_in_range. reflexivity. Qed.

(** C2. Construction returns on every environment and whatever the
    conversion does.  A rate parse yields the default when the conversion
    fails or its result is not within [0.0, 1.0], with an error record, and
    the converted value otherwise, with none; the default of every rate is
    0.0, so the five rates of a constructed injector are within
    [0.0, 1.0]. *)
Theorem rates_are_parsed_into_range (st : State) (env_var : string) (d : float) :
  (exists st1,
     _parse_rate float_of_str str_of_float env_var d st
     = (Return
          (spec_rate
             (float_of_str (rate_input str_of_float (environ st) env_var d)) d),
        st1)
     /\ self st1 = self st
     /\ log st1
        = log st
          ++ rate_diagnostic env_var (environ st !! env_var)
               (float_of_str (rate_input str_of_float (environ st) env_var d)) d)
  /\ exists st',
      __init__ float_of_str str_of_float st = (Return tt, st')
      /\ self st' = configured float_of_str str_of_float (environ st)
      /\ worker_crash_rate (self st')
         = spec_rate
             (float_of_str
                (rate_input str_of_float (environ st)
                   "AMI_TEST_WORKER_CRASH_RATE" 0%float)) 0%float
      /\ PyFloat.in_unit_range (worker_crash_rate (self st')) = true
      /\ PyFloat.in_unit_range (network_error_rate (self st')) = true
      /\ PyFloat.in_unit_range (corrupt_image_rate (self st')) = true
      /\ PyFloat.in_unit_range (image_404_rate (self st')) = true
      /\ PyFloat.in_unit_range (transient_error_rate (self st')) = true.
Proof.
  split.
  { destruct (parse_rate_run env_var d st) as (st1 & Heq & Hself & _ & _ & Hlog).
    now exists st1. }
  destruct (init_run st) as (st' & Heq & Hself).
  exists st'. split; [exact Heq|]. split; [exact Hself|].
  rewrite Hself. cbn [worker_crash_rate network_error_rate corrupt_image_rate
                      image_404_rate transient_error_rate configured].
  split; [reflexivity|].
  repeat split; apply configured_rate_in_range.
Qed.

End ConstructionFacts.

Example init_sample :
  let env : gmap string string :=
    {[ "AMI_TEST_FAULT_INJECTION_ENABLED" := "TRUE";
       "AMI_TEST_WORKER_CRASH_RATE" := "abc";
       "AMI_TEST_NETWORK_ERROR_RATE" := "1.5";
       "AMI_TEST_CORRUPT_IMAGE_RATE" := "0.25";
       "AMI_TEST_IMAGE_404_RATE" := "nan";
       "AMI_TEST_PERMANENT_ERROR_IMAGES" := " a.jpg, ,b.jpg" ]} in
  let st := {| self := sample_injector false 1%float ∅;
               environ := env; rng := sample_rng; log := [] |} in
  fst (__init__ sample_float sample_str st) = Return tt
  /\ self (snd (__init__ sample_float sample_str st))
     = {| enabled := true;
          worker_crash_rate := 0%float;
          network_error_rate := 0%float;
          corrupt_image_rate := 0.25%float;
          image_404_rate := 0%float;
          transient_error_rate := 0%float;
          permanent_error_images := {[ "a.jpg"; "b.jpg" ]} |}
  /\ map level (log (snd (__init__ sample_float sample_str st)))
     = [ERROR; ERROR; ERROR; WARNING].
Proof. vm_compute. repeat split. Qed.

Example parse_rate_malformed :
  let st := {| self := sample_injector false 1%float ∅;
               environ := {[ "AMI_TEST_WORKER_CRASH_RATE" := "abc" ]};
               rng := sample_rng; log := [] |} in
  _parse_rate sample_float sample_str "AMI_TEST_WORKER_CRASH_RATE" 0%float st
  = (Return 0%float,
     logged ERROR
       (InvalidRateFormat "AMI_TEST_WORKER_CRASH_RATE" (Some "abc") 0%float) st).
Proof. vm_compute. reflexivity. Qed.

Example parse_rate_out_of_range :
  let st := {| self := sample_injector false 1%float ∅;
               environ := {[ "AMI_TEST_WORKER_CRASH_RATE" := "1.5" ]};
               rng := sample_rng; log := [] |} in
  _parse_rate sample_float sample_str "AMI_TEST_WORKER_CRASH_RATE" 0%float st
  = (Return 0%float,
     logged ERROR (InvalidRate "AMI_TEST_WORKER_CRASH_RATE" 1.5%float) st).
Proof. vm_compute. reflexivity. Qed.

Example parse_rate_unset :
  fst (_parse_rate sample_float sample_str "AMI_TEST_WORKER_CRASH_RATE" 0%float
         (sample_state false 1%float ∅))
  = Return 0%float.
Proof. vm_compute. reflexivity. Qed.

(** * Further properties *)

(** ** Splitting and joining *)

Lemma append_cons (c : ascii) (p q : string) :
  String c p +:+ q = String c (p +:+ q).
Proof. reflexivity. Qed.

Lemma append_nil_l (q : string) : EmptyString +:+ q = q.
Proof. reflexivity. Qed.

Lemma append_assoc (p q r : string) : (p +:+ q) +:+ r = p +:+ (q +:+ r).
Proof.
  induction p as [|c p IH]; [reflexivity|].
  now rewrite !append_cons, IH.
Qed.

Section SplitJoin.

Variable sep : ascii.

Lemma split_not_nil (s : string) : PyStr.split sep s <> [].
Proof.
  destruct s as [|c s]; simpl; [easy|].
  destruct (Ascii.eqb c sep); [easy|]. now destruct (PyStr.split sep s).
Qed.

Lemma join_cons_char (c : ascii) (p : string) (ps : list string) :
  join sep (String c p :: ps) = String c (join sep (p :: ps)).
Proof. destruct ps; reflexivity. Qed.

Lemma join_split (s : string) : join sep (PyStr.split sep s) = s.
Proof.
  induction s as [|c s IH]; [reflexivity|]. simpl.
  destruct (Ascii.eqb c sep) eqn:Hc.
  - apply Ascii.eqb_eq in Hc. subst c.
    pose proof (split_not_nil s) as Hne.
    destruct (PyStr.split sep s) as [|q qs]; [easy|].
    change (EmptyString +:+ String sep (join sep (q :: qs)) = String sep s).
    now rewrite append_nil_l, IH.
  - pose proof (split_not_nil s) as Hne.
    destruct (PyStr.split sep s) as [|q qs]; [easy|].
    now rewrite join_cons_char, IH.
Qed.

Lemma split_pieces (s : string) :
  Forall (fun p => PyStr.contains sep p = false) (PyStr.split sep s).
Proof.
  induction s as [|c s IH]; simpl; [now repeat constructor|].
  destruct (Ascii.eqb c sep) eqn:Hc.
  - now constructor.
  - destruct (PyStr.split sep s) as [|q qs]; simpl.
    + repeat constructor. simpl. now rewrite Hc.
    + inversion IH as [|? ? Hq Hqs]; subst. constructor; [|exact Hqs].
      simpl. now rewrite Hc, Hq.
Qed.

Lemma split_length (s : string) :
  length (PyStr.split sep s) = S (count sep s).
Proof.
  induction s as [|c s IH]; [reflexivity|]. simpl.
  destruct (Ascii.eqb c sep); simpl; [now rewrite IH|].
  pose proof (split_not_nil s) as Hne.
  destruct (PyStr.split sep s) as [|q qs]; [easy|]. exact IH.
Qed.

Lemma split_clean (p : string) :
  PyStr.contains sep p = false -> PyStr.split sep p = [p].
Proof.
  intros Hp. destruct (split_shape sep p) as [[_ H]|[H _]]; [exact H|congruence].
Qed.

Lemma split_app (p t : string) :
  PyStr.contains sep p = false ->
  PyStr.split sep (p +:+ String sep t) = p :: PyStr.split sep t.
Proof.
  induction p as [|c p IH]; intros Hp.
  - rewrite append_nil_l. simpl. now rewrite Ascii.eqb_refl.
  - simpl in Hp. apply orb_false_elim in Hp. destruct Hp as [Hc Hp].
    rewrite append_cons. simpl. now rewrite Hc, (IH Hp).
Qed.

Lemma split_join (l : list string) :
  l <> [] ->
  Forall (fun p => PyStr.contains sep p = false) l ->
  PyStr.split sep (join sep l) = l.
Proof.
  induction l as [|p l IH]; [easy|]. intros _ Hall.
  inversion Hall as [|? ? Hp Hl]; subst.
  destruct l as [|q l].
  - now apply split_clean.
  - change (join sep (p :: q :: l)) with (p +:+ String sep (join sep (q :: l))).
    rewrite (split_app _ _ Hp). f_equal. now apply IH.
Qed.

End SplitJoin.

(** X1. [s.split(sep)] cuts [s] at every separator: the pieces hold no
    separator, there is one piece more than there are separators, joining
    the pieces with the separator gives [s] back, and no other list of
    separator-free pieces joins to [s]. *)
Theorem split_is_the_decomposition (sep : ascii) (s : string) :
  join sep (PyStr.split sep s) = s
  /\ Forall (fun p => PyStr.contains sep p = false) (PyStr.split sep s)
  /\ length (PyStr.split sep s) = S (count sep s)
  /\ (forall l : list string,
        l <> [] ->
        Forall (fun p => PyStr.contains sep p = false) l ->
        join sep l = s ->
        PyStr.split sep s = l).
Proof.
  split; [apply join_split|]. split; [apply split_pieces|].
  split; [apply split_length|].
  intros l Hne Hall <-. now apply split_join.
Qed.

Lemma split_is_the_decomposition_witness :
  [" a.jpg"; " "; "b.jpg"] <> []
  /\ PyStr.split "," " a.jpg, ,b.jpg" = [" a.jpg"; " "; "b.jpg"].
Proof.
  split; [discriminate|].
  apply (split_is_the_decomposition "," " a.jpg, ,b.jpg").
  - discriminate.
  - repeat constructor.
  - reflexivity.
Defined.

(** ** The filename of an identifier *)

Lemma filename_of_clean (s : string) : PyStr.contains "/" (filename_of s) = false.
Proof.
  apply no_slash_contains.
  destruct (filename_of_is_filename s) as [[Hs Heq]|[Hf _]]; [|exact Hf].
  now rewrite Heq.
Qed.

Lemma filename_of_no_slash (s : string) :
  PyStr.contains "/" s = false -> filename_of s = s.
Proof. unfold filename_of. now intros ->. Qed.


Lemma filename_of_prefix (p s : string) :
  filename_of (p +:+ String "/" s) = filename_of s.
Proof.
  symmetry. apply is_filename_unique. right.
  split; [apply no_slash_contains, filename_of_clean|].
  destruct (filename_of_is_filename s) as [[_ Heq]|[_ [q Hq]]].
  - exists p. now rewrite Heq.
  - exists (p +:+ String "/" q).
    rewrite append_assoc, append_cons. now rewrite <- Hq.
Qed.


Example filename_of_query_string :
  filename_of "https://example.com/img/a.jpg?size=2" = "a.jpg?size=2".
Proof. reflexivity. Qed.

(** ** Consequences for the permanent-failure list *)

(** X3. A bare filename in the permanent-failure list makes every URL
    whose last path segment is that filename fail: on an enabled injector
    the check, [maybe_image_404] and [maybe_corrupt_image] all answer true
    for [prefix/filename], whatever the prefix, the rates and the draw. *)
Theorem listed_filename_fails_every_url (st : State) (prefix f : string) :
  enabled (self st) = true ->
  f ∈ permanent_error_images (self st) ->
  PyStr.contains "/" f = false ->
  fst (_is_permanent_error_image (prefix +:+ String "/" f) st) = Return true
  /\ fst (maybe_image_404 (prefix +:+ String "/" f) st) = Return true
  /\ fst (maybe_corrupt_image (prefix +:+ String "/" f) st) = Return true.
Proof.
  intros Hon Hin Hf.
  assert (Hv : permanent_verdict (self st) (prefix +:+ String "/" f) = true).
  { rewrite (permanent_verdict_on _ _ Hon), filename_of_prefix,
      (filename_of_no_slash f Hf).
    rewrite (bool_decide_eq_true_2 _ Hin). apply orb_true_r. }
  rewrite is_permanent_error_image_eq, maybe_image_404_eq,
    maybe_corrupt_image_eq, Hv.
  now repeat split.
Qed.

Lemma listed_filename_fails_every_url_witness :
  enabled (self (sample_state true 0%float {[ "a.jpg" ]})) = true
  /\ "a.jpg" ∈ ({[ "a.jpg" ]} : gset string)
  /\ PyStr.contains "/" "a.jpg" = false
  /\ fst (maybe_image_404 ("s3://bucket/2024" +:+ String "/" "a.jpg")
            (sample_state true 0%float {[ "a.jpg" ]})) = Return true.
Proof.
  assert (Hin : "a.jpg" ∈ ({[ "a.jpg" ]} : gset string))
    by (apply elem_of_singleton_2; reflexivity).
  split; [reflexivity|]. split; [exact Hin|]. split; [reflexivity|].
  apply (listed_filename_fails_every_url
           (sample_state true 0%float {[ "a.jpg" ]}) "s3://bucket/2024" "a.jpg"
           eq_refl Hin eq_refl).
Defined.

(** X4. A list entry that holds a ['/'] is never matched through the
    filename: when every entry of the permanent-failure list holds a ['/'],
    an enabled injector's check is plain membership of the identifier. *)
Theorem url_entries_match_exactly (st : State) (s : string) :
  enabled (self st) = true ->
  (forall x, x ∈ permanent_error_images (self st) -> PyStr.contains "/" x = true) ->
  _is_permanent_error_image s st
  = (Return (bool_decide (s ∈ permanent_error_images (self st))), st).
Proof.
  intros Hon Hall. rewrite is_permanent_error_image_eq, (permanent_verdict_on _ _ Hon).
  assert (Hf : bool_decide (filename_of s ∈ permanent_error_images (self st)) = false).
  { apply bool_decide_eq_false. intros Hin.
    pose proof (Hall _ Hin) as Hslash. now rewrite filename_of_clean in Hslash. }
  now rewrite Hf, orb_false_r.
Qed.

Lemma url_entries_match_exactly_witness :
  enabled (self (sample_state true 0%float {[ "http://host/a.jpg" ]})) = true
  /\ fst (_is_permanent_error_image "http://other/a.jpg"
            (sample_state true 0%float {[ "http://host/a.jpg" ]})) = Return false.
Proof.
  split; [reflexivity|].
  rewrite (url_entries_match_exactly
             (sample_state true 0%float {[ "http://host/a.jpg" ]})
             "http://other/a.jpg" eq_refl).
  - vm_compute. reflexivity.
  - intros x Hx.
    change (x ∈ ({[ "http://host/a.jpg" ]} : gset string)) in Hx.
    apply elem_of_singleton_1 in Hx. subst x. reflexivity.
Defined.

(** ** Trimming *)

Lemma lstrip_length (s : string) : (String.length (PyStr.lstrip s) <= String.length s)%nat.
Proof.
  induction s as [|c s IH]; simpl; [lia|].
  destruct (PyStr.isspace c); simpl; lia.
Qed.

Lemma lstrip_fixed_head (c : ascii) (s : string) :
  PyStr.lstrip (String c s) = String c s -> PyStr.isspace c = false.
Proof.
  simpl. destruct (PyStr.isspace c); [|reflexivity].
  intros H. pose proof (lstrip_length s) as Hlen. rewrite H in Hlen.
  simpl in Hlen. lia.
Qed.

Lemma lstrip_idem (s : string) : PyStr.lstrip (PyStr.lstrip s) = PyStr.lstrip s.
Proof.
  induction s as [|c s IH]; [reflexivity|]. simpl.
  destruct (PyStr.isspace c) eqn:Hc; [exact IH|]. simpl. now rewrite Hc.
Qed.

Lemma rstrip_idem (s : string) : PyStr.rstrip (PyStr.rstrip s) = PyStr.rstrip s.
Proof.
  induction s as [|c s IH]; [reflexivity|]. simpl.
  destruct (PyStr.rstrip s) as [|c' r] eqn:Hr.
  - destruct (PyStr.isspace c) eqn:Hc; [reflexivity|]. simpl. now rewrite Hc.
  - simpl. simpl in IH. now rewrite IH.
Qed.

(** Trimming on the right keeps a clean left end. *)
Lemma lstrip_rstrip (s : string) :
  PyStr.lstrip s = s -> PyStr.lstrip (PyStr.rstrip s) = PyStr.rstrip s.
Proof.
  destruct s as [|c s]; [reflexivity|]. intros Hfix.
  pose proof (lstrip_fixed_head c s Hfix) as Hc. simpl.
  destruct (PyStr.rstrip s); [rewrite Hc|]; simpl; now rewrite Hc.
Qed.

Lemma strip_idem (s : string) : PyStr.strip (PyStr.strip s) = PyStr.strip s.
Proof.
  unfold PyStr.strip.
  rewrite (lstrip_rstrip (PyStr.lstrip s) (lstrip_idem s)). apply rstrip_idem.
Qed.

Lemma lstrip_contains (sep : ascii) (s : string) :
  PyStr.contains sep s = false -> PyStr.contains sep (PyStr.lstrip s) = false.
Proof.
  induction s as [|c s IH]; [easy|]. intros H. simpl.
  destruct (PyStr.isspace c); [|exact H].
  simpl in H. apply orb_false_elim in H. now apply IH.
Qed.

Lemma rstrip_contains (sep : ascii) (s : string) :
  PyStr.contains sep s = false -> PyStr.contains sep (PyStr.rstrip s) = false.
Proof.
  induction s as [|c s IH]; [easy|]. intros H. simpl in H.
  apply orb_false_elim in H. destruct H as [Hc Hs]. specialize (IH Hs). simpl.
  destruct (PyStr.rstrip s) as [|c' r].
  - destruct (PyStr.isspace c); [reflexivity|]. simpl. now rewrite Hc.
  - change (PyStr.contains sep (String c (String c' r)))
      with (Ascii.eqb c sep || PyStr.contains sep (String c' r)).
    now rewrite Hc, IH.
Qed.

Lemma strip_contains (sep : ascii) (s : string) :
  PyStr.contains sep s = false -> PyStr.contains sep (PyStr.strip s) = false.
Proof. intros H. now apply rstrip_contains, lstrip_contains. Qed.

Lemma truthy_true (s : string) : PyStr.truthy s = true <-> s <> EmptyString.
Proof.
  unfold PyStr.truthy. destruct (String.eqb_spec s EmptyString); split; easy.
Qed.

Lemma parse_permanent_images_elem (str x : string) :
  x ∈ parse_permanent_images str <->
  x <> EmptyString
  /\ exists piece, In piece (PyStr.split "," str) /\ PyStr.strip piece = x.
Proof.
  unfold parse_permanent_images.
  rewrite elem_of_list_to_set, list_elem_of_In, in_map_iff. split.
  - intros (piece & Hx & Hin). apply filter_In in Hin. destruct Hin as [Hin Ht].
    rewrite Hx in Ht. split; [now apply truthy_true|]. now exists piece.
  - intros (Hne & piece & Hin & Hx). exists piece. split; [exact Hx|].
    apply filter_In. split; [exact Hin|]. rewrite Hx. now apply truthy_true.
Qed.

Lemma parse_permanent_images_clean (str x : string) :
  x ∈ parse_permanent_images str ->
  x <> EmptyString /\ PyStr.strip x = x /\ PyStr.contains "," x = false.
Proof.
  intros Hx. apply parse_permanent_images_elem in Hx.
  destruct Hx as (Hne & piece & Hin & <-). split; [exact Hne|].
  split; [apply strip_idem|]. apply strip_contains.
  pose proof (split_pieces "," str) as Hall.
  rewrite List.Forall_forall in Hall. now apply Hall.
Qed.

(** ** What construction does *)

Section ConstructionEffects.

Variable float_of_str : string -> option float.
Variable str_of_float : float -> string.

Lemma parse_rate_step_full (env_var : string) (st : State)
  (env : gmap string string) (g : Random) (l : list LogRecord) :
  environ st = env -> rng st = g -> log st = l ->
  exists st',
    _parse_rate float_of_str str_of_float env_var 0%float st
    = (Return (configured_rate float_of_str str_of_float env env_var), st')
    /\ self st' = self st
    /\ environ st' = env
    /\ rng st' = g
    /\ log st'
       = l ++ rate_diagnostic env_var (env !! env_var)
                (float_of_str (rate_input str_of_float env env_var 0%float))
                0%float.
Proof.
  intros <- <- <-.
  destruct (parse_rate_run float_of_str str_of_float env_var 0%float st)
    as (st' & Heq & Hself & Henv & Hrng & Hlog).
  exists st'. now repeat split.
Qed.

Ltac parse_step_full env g :=
  match goal with
  | |- context [_parse_rate ?f ?h ?v ?d ?s] =>
      let st' := fresh "st" in
      let Heq := fresh "Heq" in
      let Hself := fresh "Hself" in
      let Henv := fresh "Henv" in
      let Hrng := fresh "Hrng" in
      let Hlog := fresh "Hlog" in
      destruct (parse_rate_step_full v s env g (log s))
        as (st' & Heq & Hself & Henv & Hrng & Hlog);
      [first [reflexivity|assumption]..|];
      rewrite Heq; clear Heq; cbn beta iota; cbn [log with_self] in Hlog
  end.

Lemma init_run_full (st : State) :
  exists st',
    __init__ float_of_str str_of_float st = (Return tt, st')
    /\ self st' = configured float_of_str str_of_float (environ st)
    /\ environ st' = environ st
    /\ rng st' = rng st
    /\ log st'
       = log st
         ++ construction_diagnostics float_of_str str_of_float (environ st)
         ++ [construction_notice float_of_str str_of_float (environ st)].
Proof.
  unfold __init__. run.
  do 5 parse_step_full (environ st) (rng st).
  cbn [environ with_self]. rewrite Henv3.
  assert (Hattrs :
    forall images,
      set_permanent_error_images images
        (set_transient_error_rate
           (configured_rate float_of_str str_of_float (environ st)
              "AMI_TEST_TRANSIENT_ERROR_RATE")
           (self st4))
      = {| enabled := enabled (configured float_of_str str_of_float (environ st));
           worker_crash_rate :=
             configured_rate float_of_str str_of_float (environ st)
               "AMI_TEST_WORKER_CRASH_RATE";
           network_error_rate :=
             configured_rate float_of_str str_of_float (environ st)
               "AMI_TEST_NETWORK_ERROR_RATE";
           corrupt_image_rate :=
             configured_rate float_of_str str_of_float (environ st)
               "AMI_TEST_CORRUPT_IMAGE_RATE";
           image_404_rate :=
             configured_rate float_of_str str_of_float (environ st)
               "AMI_TEST_IMAGE_404_RATE";
           transient_error_rate :=
             configured_rate float_of_str str_of_float (environ st)
               "AMI_TEST_TRANSIENT_ERROR_RATE";
           permanent_error_images := images |}).
  { intros images. unfold set_permanent_error_images, set_transient_error_rate.
    cbn [enabled worker_crash_rate network_error_rate corrupt_image_rate
         image_404_rate transient_error_rate permanent_error_images].
    rewrite Hself3. cbn [self with_self]. unfold set_image_404_rate.
    cbn [enabled worker_crash_rate network_error_rate corrupt_image_rate
         image_404_rate transient_error_rate permanent_error_images].
    rewrite Hself2. cbn [self with_self]. unfold set_corrupt_image_rate.
    cbn [enabled worker_crash_rate network_error_rate corrupt_image_rate
         image_404_rate transient_error_rate permanent_error_images].
    rewrite Hself1. cbn [self with_self]. unfold set_network_error_rate.
    cbn [enabled worker_crash_rate network_error_rate corrupt_image_rate
         image_404_rate transient_error_rate permanent_error_images].
    rewrite Hself0. cbn [self with_self]. unfold set_worker_crash_rate.
    cbn [enabled worker_crash_rate network_error_rate corrupt_image_rate
         image_404_rate transient_error_rate permanent_error_images].
    rewrite Hself. reflexivity. }
  destruct (PyStr.truthy _) eqn:Htruthy; cbn beta iota; cbn [self with_self];
    rewrite Hattrs;
    match goal with
    | |- context [negb (enabled ?o)] =>
        replace o with (configured float_of_str str_of_float (environ st))
          by (unfold configured; cbn zeta; rewrite Htruthy; reflexivity)
    end;
    destruct (enabled (configured float_of_str str_of_float (environ st)))
      eqn:Hon;
    cbn beta iota;
    (eexists; split; [reflexivity|]);
    cbn [self environ rng log with_self with_log];
    (split; [rewrite Hattrs; unfold configured in Hon |- *; cbn zeta;
             cbn [enabled] in Hon; rewrite Htruthy, Hon; reflexivity|]);
    (split; [exact Henv3|]); (split; [exact Hrng3|]);
    rewrite Hlog3, Hlog2, Hlog1, Hlog0, Hlog;
    unfold construction_diagnostics, construction_notice, rate_variables;
    cbn [map concat]; rewrite Hon, app_nil_r, <- !app_assoc; reflexivity.
Qed.

(** X5. The permanent-failure set of a constructed injector holds exactly
    the trimmed, non-empty pieces of the comma-separated variable.  So no
    entry is empty, none has whitespace left at either end, none holds a
    comma; an unset or empty variable gives the empty set. *)
Theorem constructed_images_are_trimmed (st : State) (x : string) :
  exists st',
    __init__ float_of_str str_of_float st = (Return tt, st')
    /\ (x ∈ permanent_error_images (self st') <->
        x <> EmptyString
        /\ exists piece,
            In piece
              (PyStr.split ","
                 (default "" (environ st !! "AMI_TEST_PERMANENT_ERROR_IMAGES")))
            /\ PyStr.strip piece = x)
    /\ (x ∈ permanent_error_images (self st') ->
        x <> EmptyString /\ PyStr.strip x = x /\ PyStr.contains "," x = false)
    /\ (default "" (environ st !! "AMI_TEST_PERMANENT_ERROR_IMAGES") = EmptyString ->
        permanent_error_images (self st') = ∅).
Proof.
  destruct (init_run_full st) as (st' & Heq & Hself & _).
  exists st'. split; [exact Heq|]. rewrite Hself.
  cbn [permanent_error_images configured]. cbn zeta.
  destruct (PyStr.truthy _) eqn:Ht.
  - split; [apply parse_permanent_images_elem|].
    split; [apply parse_permanent_images_clean|].
    intros Hempty. rewrite Hempty in Ht. discriminate Ht.
  - assert (Hempty : default "" (environ st !! "AMI_TEST_PERMANENT_ERROR_IMAGES")
                     = EmptyString).
    { destruct (default _ _); [reflexivity|discriminate Ht]. }
    split; [|split; [|reflexivity]].
    + split; [intros Hin; now apply not_elem_of_empty in Hin|].
      rewrite Hempty. intros (Hne & piece & [<-|[]] & Hx). now destruct Hne.
    + intros Hin. now apply not_elem_of_empty in Hin.
Qed.

End ConstructionEffects.

Lemma constructed_images_are_trimmed_witness :
  let st := {| self := sample_injector false 0%float ∅;
               environ := {[ "AMI_TEST_PERMANENT_ERROR_IMAGES" := " a.jpg, ,b.jpg" ]};
               rng := sample_rng; log := [] |} in
  "a.jpg" ∈ permanent_error_images
              (self (snd (__init__ sample_float sample_str st)))
  /\ PyStr.strip "a.jpg" = "a.jpg".
Proof.
  cbn zeta.
  destruct (constructed_images_are_trimmed sample_float sample_str
              {| self := sample_injector false 0%float ∅;
                 environ := {[ "AMI_TEST_PERMANENT_ERROR_IMAGES" := " a.jpg, ,b.jpg" ]};
                 rng := sample_rng; log := [] |} "a.jpg")
    as (st' & Heq & Hiff & Hclean & _).
  rewrite Heq. cbn [snd].
  assert (Hin : "a.jpg" ∈ permanent_error_images (self st')).
  { apply Hiff. split; [discriminate|]. exists " a.jpg".
    split; [left; reflexivity|reflexivity]. }
  split; [exact Hin|]. apply (Hclean Hin).
Defined.

(** ** The enable flag *)

Ltac by_cases_on_char c :=
  destruct c as [[] [] [] [] [] [] [] []]; vm_compute;
  intros H; try discriminate H; auto.

Lemma lower_char_t (c : ascii) :
  PyStr.lower_char c = "t"%char -> c = "t"%char \/ c = "T"%char.
Proof. by_cases_on_char c. Qed.

Lemma lower_char_r (c : ascii) :
  PyStr.lower_char c = "r"%char -> c = "r"%char \/ c = "R"%char.
Proof. by_cases_on_char c. Qed.

Lemma lower_char_u (c : ascii) :
  PyStr.lower_char c = "u"%char -> c = "u"%char \/ c = "U"%char.
Proof. by_cases_on_char c. Qed.

Lemma lower_char_e (c : ascii) :
  PyStr.lower_char c = "e"%char -> c = "e"%char \/ c = "E"%char.
Proof. by_cases_on_char c. Qed.

Lemma lower_true_iff (v : string) :
  PyStr.lower v = "true" <->
  exists c1 c2 c3 c4,
    v = String c1 (String c2 (String c3 (String c4 EmptyString)))
    /\ (c1 = "t"%char \/ c1 = "T"%char) /\ (c2 = "r"%char \/ c2 = "R"%char)
    /\ (c3 = "u"%char \/ c3 = "U"%char) /\ (c4 = "e"%char \/ c4 = "E"%char).
Proof.
  split.
  - destruct v as [|c1 [|c2 [|c3 [|c4 [|c5 v]]]]]; simpl; try discriminate.
    intros [= H1 H2 H3 H4]. exists c1, c2, c3, c4.
    split; [reflexivity|].
    auto using lower_char_t, lower_char_r, lower_char_u, lower_char_e.
  - intros (c1 & c2 & c3 & c4 & -> & [-> | ->] & [-> | ->] & [-> | ->] & [-> | ->]);
      reflexivity.
Qed.

Section ConstructionUse.

Variable float_of_str : string -> option float.
Variable str_of_float : float -> string.

(** X6. A constructed injector is enabled exactly when the enable variable
    is set to the four letters of ["true"], each in either case; an unset
    variable, and any other value (padded with blanks, ["1"], ["yes"]),
    leaves it disabled. *)
Theorem constructed_enabled_iff (st : State) :
  exists st',
    __init__ float_of_str str_of_float st = (Return tt, st')
    /\ (enabled (self st') = true <->
        exists c1 c2 c3 c4,
          environ st !! "AMI_TEST_FAULT_INJECTION_ENABLED"
          = Some (String c1 (String c2 (String c3 (String c4 EmptyString))))
          /\ (c1 = "t"%char \/ c1 = "T"%char) /\ (c2 = "r"%char \/ c2 = "R"%char)
          /\ (c3 = "u"%char \/ c3 = "U"%char) /\ (c4 = "e"%char \/ c4 = "E"%char)).
Proof.
  destruct (init_run_full float_of_str str_of_float st) as (st' & Heq & Hself & _).
  exists st'. split; [exact Heq|]. rewrite Hself. cbn [enabled configured].
  rewrite String.eqb_eq, lower_true_iff.
  destruct (environ st !! "AMI_TEST_FAULT_INJECTION_ENABLED") as [v|].
  - change (default "false" (Some v)) with v. split.
    + intros (c1 & c2 & c3 & c4 & -> & H). now exists c1, c2, c3, c4.
    + intros (c1 & c2 & c3 & c4 & [= ->] & H). now exists c1, c2, c3, c4.
  - change (default "false" (@None string)) with "false". split.
    + intros (c1 & c2 & c3 & c4 & [=] & _).
    + intros (c1 & c2 & c3 & c4 & [=] & _).
Qed.

(** X7. Construction reads the environment and writes to the logger, and
    nothing else: it returns with the environment and the generator as they
    were, and the log grown by the diagnostics of the five rates, in
    parsing order, followed by one notice, at level WARNING when the
    injector is enabled and INFO when it is not.  At most five records
    precede the notice and all of them are errors. *)
Theorem construction_effects (st : State) :
  exists st',
    __init__ float_of_str str_of_float st = (Return tt, st')
    /\ environ st' = environ st
    /\ rng st' = rng st
    /\ log st'
       = log st
         ++ construction_diagnostics float_of_str str_of_float (environ st)
         ++ [construction_notice float_of_str str_of_float (environ st)]
    /\ (length (construction_diagnostics float_of_str str_of_float (environ st))
        <= 5)%nat
    /\ Forall (fun r => level r = ERROR)
         (construction_diagnostics float_of_str str_of_float (environ st))
    /\ level (construction_notice float_of_str str_of_float (environ st))
       = (if enabled (self st') then WARNING else INFO).
Proof.
  destruct (init_run_full float_of_str str_of_float st)
    as (st' & Heq & Hself & Henv & Hrng & Hlog).
  exists st'. split; [exact Heq|]. split; [exact Henv|]. split; [exact Hrng|].
  split; [exact Hlog|].
  assert (Hdiag : forall v value c,
             (length (rate_diagnostic v value c 0%float) <= 1)%nat
             /\ Forall (fun r => level r = ERROR) (rate_diagnostic v value c 0%float)).
  { intros v value [r|]; simpl; [|split; [lia|now repeat constructor]].
    destruct (PyFloat.in_unit_range r); simpl;
      (split; [lia|now repeat constructor]). }
  unfold construction_diagnostics, rate_variables. cbn [map concat].
  split; [|split].
  - rewrite !length_app. simpl.
    repeat match goal with
           | |- context [length (rate_diagnostic ?v ?value ?c 0%float)] =>
               let H := fresh in
               pose proof (proj1 (Hdiag v value c)) as H;
               generalize dependent (length (rate_diagnostic v value c 0%float));
               intros
           end.
    lia.
  - rewrite app_nil_r. repeat (apply Forall_app; split); apply Hdiag.
  - rewrite Hself. unfold construction_notice. cbn zeta.
    now destruct (enabled _).
Qed.

(** X8. An injector constructed while the enable variable is unset, or set
    to anything whose lower case is not ["true"], injects nothing: whatever
    rates and permanent-failure list the environment gives, every
    [maybe_*] query then answers false, [maybe_crash_worker] returns, and
    the state stays as construction left it. *)
Theorem unconfigured_injector_is_inert (st : State) (text image_url : string) :
  PyStr.lower (default "false" (environ st !! "AMI_TEST_FAULT_INJECTION_ENABLED"))
  <> "true" ->
  exists st',
    __init__ float_of_str str_of_float st = (Return tt, st')
    /\ maybe_crash_worker text st' = (Return tt, st')
    /\ maybe_network_error text st' = (Return false, st')
    /\ maybe_image_404 image_url st' = (Return false, st')
    /\ maybe_corrupt_image image_url st' = (Return false, st')
    /\ maybe_transient_error text st' = (Return false, st').
Proof.
  intros Hflag.
  destruct (init_run_full float_of_str str_of_float st) as (st' & Heq & Hself & _).
  exists st'. split; [exact Heq|].
  assert (Hoff : enabled (self st') = false).
  { rewrite Hself. cbn [enabled configured]. now apply String.eqb_neq. }
  assert (Hdrawn : forall rate ev, drawn rate ev st' = (Return false, st')).
  { intros rate ev. unfold drawn. now rewrite Hoff. }
  assert (Hverdict : permanent_verdict (self st') image_url = false).
  { unfold permanent_verdict. now rewrite Hoff. }
  rewrite maybe_network_error_eq, maybe_transient_error_eq, maybe_image_404_eq,
    maybe_corrupt_image_eq, Hverdict, !Hdrawn.
  split; [|now repeat split].
  unfold maybe_crash_worker. run. rewrite should_trigger_eq. now rewrite Hoff.
Qed.

End ConstructionUse.

Lemma unconfigured_injector_is_inert_witness :
  let st := {| self := sample_injector true 1%float {[ "a.jpg" ]};
               environ := {[ "AMI_TEST_NETWORK_ERROR_RATE" := "1.0";
                             "AMI_TEST_PERMANENT_ERROR_IMAGES" := "a.jpg" ]};
               rng := sample_rng; log := [] |} in
  PyStr.lower (default "false" (environ st !! "AMI_TEST_FAULT_INJECTION_ENABLED"))
  <> "true"
  /\ exists st',
      __init__ sample_float sample_str st = (Return tt, st')
      /\ maybe_image_404 "a.jpg" st' = (Return false, st')
      /\ maybe_network_error "API call" st' = (Return false, st').
Proof.
  cbn zeta.
  assert (Hflag :
    PyStr.lower
      (default "false"
         (environ
            {| self := sample_injector true 1%float {[ "a.jpg" ]};
               environ := {[ "AMI_TEST_NETWORK_ERROR_RATE" := "1.0";
                             "AMI_TEST_PERMANENT_ERROR_IMAGES" := "a.jpg" ]};
               rng := sample_rng; log := [] |}
          !! "AMI_TEST_FAULT_INJECTION_ENABLED"))
    <> "true") by (vm_compute; discriminate).
  split; [exact Hflag|].
  destruct (unconfigured_injector_is_inert sample_float sample_str _
              "API call" "a.jpg" Hflag)
    as (st' & Heq & _ & Hnet & H404 & _).
  exists st'. now repeat split.
Defined.

Example constructed_enabled_mixed_case :
  enabled
    (self (snd (__init__ sample_float sample_str
                  {| self := sample_injector false 0%float ∅;
                     environ := {[ "AMI_TEST_FAULT_INJECTION_ENABLED" := "True" ]};
                     rng := sample_rng; log := [] |})))
  = true.
Proof. vm_compute. reflexivity. Qed.

Example constructed_disabled_padded :
  enabled
    (self (snd (__init__ sample_float sample_str
                  {| self := sample_injector false 0%float ∅;
                     environ := {[ "AMI_TEST_FAULT_INJECTION_ENABLED" := " true" ]};
                     rng := sample_rng; log := [] |})))
  = false.
Proof. vm_compute. reflexivity. Qed.

(** ** Logging and the use of the generator *)

Lemma drawn_logs (rate : float) (ev : LogEvent) (st : State) :
  logs_iff_true (fun s => drawn rate ev s) st.
Proof.
  unfold logs_iff_true, drawn.
  destruct (enabled (self st)).
  - destruct (next_draw st <? rate)%float; eexists _, _;
      (split; [reflexivity|]); split; try discriminate.
    + intros _. now exists ev.
    + reflexivity.
  - eexists _, _. split; [reflexivity|]. split; [discriminate|reflexivity].
Qed.

(** X9. The four boolean queries and [maybe_crash_worker] report to the
    logger exactly the faults they inject: a query that answers true has
    appended one error record and a query that answers false none;
    [maybe_crash_worker] has appended its one error record when it exits
    and none when it returns. *)
Theorem queries_log_what_they_inject (st : State) (text image_url : string) :
  logs_iff_true (maybe_network_error text) st
  /\ logs_iff_true (maybe_image_404 image_url) st
  /\ logs_iff_true (maybe_corrupt_image image_url) st
  /\ logs_iff_true (maybe_transient_error text) st
  /\ (forall status st',
        maybe_crash_worker text st = (Exit status, st') ->
        log st' = log st ++ [{| level := ERROR; event := SimulatedWorkerCrash text |}])
  /\ (forall st', maybe_crash_worker text st = (Return tt, st') -> log st' = log st).
Proof.
  assert (Hperm : forall ev, logs_iff_true (fun s => (Return true, logged ERROR ev s)) st).
  { intros ev. eexists _, _. split; [reflexivity|].
    split; [intros _; now exists ev|discriminate]. }
  split; [|split; [|split; [|split; [|split]]]].
  - unfold logs_iff_true. rewrite maybe_network_error_eq. apply drawn_logs.
  - unfold logs_iff_true. rewrite maybe_image_404_eq.
    destruct (permanent_verdict _ _); [apply Hperm|apply drawn_logs].
  - unfold logs_iff_true. rewrite maybe_corrupt_image_eq.
    destruct (permanent_verdict _ _); [apply Hperm|apply drawn_logs].
  - unfold logs_iff_true. rewrite maybe_transient_error_eq. apply drawn_logs.
  - intros status st'. unfold maybe_crash_worker. run. rewrite should_trigger_eq.
    destruct (enabled (self st)); [|discriminate].
    destruct (next_draw st <? _)%float; [|discriminate].
    now intros [= _ <-].
  - intros st'. unfold maybe_crash_worker. run. rewrite should_trigger_eq.
    destruct (enabled (self st)); [|now intros [= <-]].
    destruct (next_draw st <? _)%float; [discriminate|].
    now intros [= <-].
Qed.

Lemma queries_log_what_they_inject_witness :
  maybe_crash_worker "job" (sample_state true 1%float ∅)
  = (Exit 1%Z,
     logged ERROR (SimulatedWorkerCrash "job")
       (with_rng advance (sample_state true 1%float ∅)))
  /\ log (logged ERROR (SimulatedWorkerCrash "job")
            (with_rng advance (sample_state true 1%float ∅)))
     = log (sample_state true 1%float ∅)
       ++ [{| level := ERROR; event := SimulatedWorkerCrash "job" |}].
Proof.
  split; [reflexivity|].
  apply (queries_log_what_they_inject (sample_state true 1%float ∅) "job" "x.jpg")
    with (status := 1%Z).
  reflexivity.
Defined.

Lemma within_refl (st : State) : within 0 0 st st.
Proof.
  repeat split; try lia. exists []. split; [now rewrite app_nil_r|simpl; lia].
Qed.

Lemma within_weaken (d r d' r' : nat) (st st' : State) :
  (d <= d')%nat -> (r <= r')%nat -> within d r st st' -> within d' r' st st'.
Proof.
  intros Hd Hr (He & Hu & Hi & Hc & rs & Hl & Hn).
  repeat split; try assumption; try lia. exists rs. split; [exact Hl|lia].
Qed.

Lemma within_trans (d1 r1 d2 r2 : nat) (st1 st2 st3 : State) :
  within d1 r1 st1 st2 -> within d2 r2 st2 st3 ->
  within (d1 + d2) (r1 + r2) st1 st3.
Proof.
  intros (He & Hu & Hi & Hc & rs & Hl & Hn) (He' & Hu' & Hi' & Hc' & rs' & Hl' & Hn').
  repeat split; try congruence; try lia.
  exists (rs ++ rs'). split; [now rewrite Hl', Hl, app_assoc|].
  rewrite length_app. lia.
Qed.

Lemma within_draw (st : State) : within 1 0 st (with_rng advance st).
Proof.
  repeat split; simpl; try lia. exists []. split; [now rewrite app_nil_r|simpl; lia].
Qed.

Lemma within_logged (lvl : LogLevel) (ev : LogEvent) (st : State) :
  within 0 1 st (logged lvl ev st).
Proof.
  repeat split; simpl; try lia. eexists. split; [reflexivity|simpl; lia].
Qed.

Lemma drawn_within (rate : float) (ev : LogEvent) (st : State) :
  within 1 1 st (snd (drawn rate ev st)).
Proof.
  unfold drawn. destruct (enabled (self st)).
  - destruct (next_draw st <? rate)%float; cbn [snd].
    + apply (within_trans 1 0 0 1 _ _ _ (within_draw st) (within_logged _ _ _)).
    + apply (within_weaken 1 0); [lia..|apply within_draw].
  - apply (within_weaken 0 0); [lia..|apply within_refl].
Qed.

Lemma perform_within (c : Call) (st : State) :
  within 1 1 st (snd (perform c st)).
Proof.
  destruct c; unfold perform; rewrite observe_snd.
  - unfold maybe_crash_worker. run. rewrite should_trigger_eq.
    destruct (enabled (self st));
      [|apply (within_weaken 0 0); [lia..|apply within_refl]].
    destruct (next_draw st <? _)%float; cbn [snd].
    + apply (within_trans 1 0 0 1 _ _ _ (within_draw st) (within_logged _ _ _)).
    + apply (within_weaken 1 0); [lia..|apply within_draw].
  - rewrite maybe_network_error_eq. apply drawn_within.
  - rewrite maybe_image_404_eq. destruct (permanent_verdict _ _);
      [apply (within_weaken 0 1); [lia..|apply within_logged]|apply drawn_within].
  - rewrite maybe_corrupt_image_eq. destruct (permanent_verdict _ _);
      [apply (within_weaken 0 1); [lia..|apply within_logged]|apply drawn_within].
  - rewrite maybe_transient_error_eq. apply drawn_within.
  - rewrite should_trigger_eq. destruct (enabled (self st)); cbn [snd].
    + apply (within_weaken 1 0); [lia..|apply within_draw].
    + apply (within_weaken 0 0); [lia..|apply within_refl].
  - rewrite is_permanent_error_image_eq.
    apply (within_weaken 0 0); [lia..|apply within_refl].
  - unfold raise_network_error, random_choice. run.
    destruct (error_types operation !! _); cbn [snd].
    + apply (within_weaken 1 0); [lia..|apply within_draw].
    + apply (within_weaken 0 0); [lia..|apply within_refl].
  - unfold raise_image_error, raise.
    repeat (match goal with |- context [String.eqb ?a ?b] =>
              destruct (String.eqb a b) end);
      apply (within_weaken 0 0); try lia; apply within_refl.
  - apply (within_weaken 0 0); [lia..|apply within_refl].
  - unfold log_statistics. run. destruct (negb (enabled (self st)));
      apply (within_weaken 0 1); try lia; apply within_logged.
Qed.

Lemma run_calls_within (cs : list Call) (st0 st : State) (d r : nat) :
  within d r st0 st ->
  Forall (within (d + length cs) (r + length cs) st0) (run_calls cs st).
Proof.
  revert st d r. induction cs as [|c cs IH]; intros st d r Hst; simpl;
    [constructor|].
  pose proof (perform_within c st) as Hc.
  pose proof (within_trans _ _ _ _ _ _ _ Hst Hc) as Hstep.
  destruct (perform c st) as [[ | e | n] st']; cbn [snd] in Hc, Hstep.
  - constructor; [apply (within_weaken (d + 1) (r + 1)); [lia..|exact Hstep]|].
    replace (d + S (length cs))%nat with ((d + 1) + length cs)%nat by lia.
    replace (r + S (length cs))%nat with ((r + 1) + length cs)%nat by lia.
    now apply IH.
  - constructor; [apply (within_weaken (d + 1) (r + 1)); [lia..|exact Hstep]|].
    replace (d + S (length cs))%nat with ((d + 1) + length cs)%nat by lia.
    replace (r + S (length cs))%nat with ((r + 1) + length cs)%nat by lia.
    now apply IH.
  - constructor; [|constructor].
    apply (within_weaken (d + 1) (r + 1)); [lia..|exact Hstep].
Qed.

(** X10. Whatever sequence of calls the host makes, the environment and
    the tapes of the generator stay as they were, the log only grows, and
    [n] calls use the generator at most [n] times and append at most [n]
    records: each call draws at most once and logs at most once. *)
Theorem calls_draw_and_log_at_most_once (cs : list Call) (st : State) :
  Forall (within (length cs) (length cs) st) (run_calls cs st)
  /\ (forall c, within 1 1 st (snd (perform c st))).
Proof.
  split; [|intros c; apply perform_within].
  apply (run_calls_within cs st st 0 0 (within_refl st)).
Qed.

(** ** Order of the rates *)

Lemma SFcompare_lt_le_trans (x y z : spec_float) :
  SFcompare x y = Some Lt ->
  SFcompare y z = Some Lt \/ SFcompare y z = Some Eq ->
  SFcompare x z = Some Lt.
Proof.
  intros Hxy Hyz.
  destruct x as [sx|sx| |sx mx ex], y as [sy|sy| |sy my ey], z as [sz|sz| |sz mz ez];
    try destruct sx; try destruct sy; try destruct sz;
    cbv beta iota delta [SFcompare] in *;
    try discriminate Hxy; try reflexivity;
    try (destruct Hyz as [Hyz|Hyz]; discriminate Hyz).
  all: change (PosDef.Pos.compare_cont Eq) with Pos.compare in *.
  all: destruct (Z.compare_spec ex ey); try discriminate Hxy;
       destruct (Z.compare_spec ey ez);
       try (destruct Hyz as [Hyz|Hyz]; discriminate Hyz);
       destruct (Z.compare_spec ex ez); try reflexivity; try lia; subst.
  all: try lia.
  all: destruct (Pos.compare_spec mx my); try discriminate Hxy;
       destruct (Pos.compare_spec my mz);
       try (destruct Hyz as [Hyz|Hyz]; discriminate Hyz);
       destruct (Pos.compare_spec mx mz); try reflexivity; try lia.
Qed.

(** [d < r1] and [r1 <= r2] give [d < r2]. *)
Lemma ltb_leb_trans (d r1 r2 : float) :
  (d <? r1)%float = true -> (r1 <=? r2)%float = true -> (d <? r2)%float = true.
Proof.
  rewrite !FloatAxioms.ltb_spec, FloatAxioms.leb_spec. unfold SFltb, SFleb.
  intros Hlt Hle.
  assert (H1 : SFcompare (Prim2SF d) (Prim2SF r1) = Some Lt).
  { destruct (SFcompare (Prim2SF d) (Prim2SF r1)) as [[]|]; easy. }
  assert (H2 : SFcompare (Prim2SF r1) (Prim2SF r2) = Some Lt
               \/ SFcompare (Prim2SF r1) (Prim2SF r2) = Some Eq).
  { destruct (SFcompare (Prim2SF r1) (Prim2SF r2)) as [[]|]; auto; easy. }
  now rewrite (SFcompare_lt_le_trans _ _ _ H1 H2).
Qed.

Lemma drawn_monotone (r1 r2 : float) (ev1 ev2 : LogEvent) (st1 st2 : State) :
  enabled (self st1) = enabled (self st2) ->
  rng st1 = rng st2 ->
  (r1 <=? r2)%float = true ->
  fst (drawn r1 ev1 st1) = Return true ->
  fst (drawn r2 ev2 st2) = Return true.
Proof.
  intros Hon Hrng Hle. unfold drawn, next_draw. rewrite <- Hon, <- Hrng.
  destruct (enabled (self st1)); [|discriminate].
  destruct (_ <? r1)%float eqn:Hlt; [|discriminate].
  intros _. now rewrite (ltb_leb_trans _ _ _ Hlt Hle).
Qed.

(** X11. Raising rates never removes a fault.  Take two injectors with the
    same switch and permanent-failure set, the second with no rate lower
    than the first, and the same state of the generator: every boolean
    query that answers true on the first answers true on the second, and
    [maybe_crash_worker] exits on the second when it exits on the first. *)
Theorem faults_are_monotone_in_the_rates
  (st1 st2 : State) (text image_url : string) :
  no_less_faulty (self st1) (self st2) ->
  rng st1 = rng st2 ->
  (fst (maybe_network_error text st1) = Return true ->
   fst (maybe_network_error text st2) = Return true)
  /\ (fst (maybe_image_404 image_url st1) = Return true ->
      fst (maybe_image_404 image_url st2) = Return true)
  /\ (fst (maybe_corrupt_image image_url st1) = Return true ->
      fst (maybe_corrupt_image image_url st2) = Return true)
  /\ (fst (maybe_transient_error text st1) = Return true ->
      fst (maybe_transient_error text st2) = Return true)
  /\ (fst (maybe_crash_worker text st1) = Exit 1%Z ->
      fst (maybe_crash_worker text st2) = Exit 1%Z).
Proof.
  intros (Hon & Hset & Hcrash & Hnet & Hcor & H404 & Htra) Hrng.
  assert (Hv : permanent_verdict (self st2) image_url
               = permanent_verdict (self st1) image_url).
  { unfold permanent_verdict. now rewrite Hon, Hset. }
  split; [|split; [|split; [|split]]].
  - rewrite !maybe_network_error_eq. now apply drawn_monotone.
  - rewrite !maybe_image_404_eq, Hv.
    destruct (permanent_verdict (self st1) image_url); [intros _; reflexivity|].
    now apply drawn_monotone.
  - rewrite !maybe_corrupt_image_eq, Hv.
    destruct (permanent_verdict (self st1) image_url); [intros _; reflexivity|].
    now apply drawn_monotone.
  - rewrite !maybe_transient_error_eq. now apply drawn_monotone.
  - unfold maybe_crash_worker. run. rewrite !should_trigger_eq.
    unfold next_draw. rewrite <- Hon, <- Hrng.
    destruct (enabled (self st1)); [|discriminate].
    destruct (_ <? worker_crash_rate (self st1))%float eqn:Hlt; [|discriminate].
    intros _. now rewrite (ltb_leb_trans _ _ _ Hlt Hcrash).
Qed.

Lemma faults_are_monotone_in_the_rates_witness :
  no_less_faulty (self (sample_state true 0.75%float ∅))
    (self (sample_state true 1%float ∅))
  /\ rng (sample_state true 0.75%float ∅) = rng (sample_state true 1%float ∅)
  /\ fst (maybe_network_error "API call" (sample_state true 0.75%float ∅))
     = Return true
  /\ fst (maybe_network_error "API call" (sample_state true 1%float ∅))
     = Return true.
Proof.
  assert (H : no_less_faulty (self (sample_state true 0.75%float ∅))
                (self (sample_state true 1%float ∅)))
    by (repeat split; reflexivity).
  split; [exact H|]. split; [reflexivity|]. split; [reflexivity|].
  apply (faults_are_monotone_in_the_rates _ _ "API call" "x.jpg" H eq_refl).
  reflexivity.
Defined.

(** ** The range check of a rate *)

Lemma SFcompare_lt_gt (x y : spec_float) :
  SFcompare x y = Some Lt -> SFcompare y x = Some Gt.
Proof.
  intros Hxy.
  destruct x as [sx|sx| |sx mx ex], y as [sy|sy| |sy my ey];
    try destruct sx; try destruct sy;
    cbv beta iota delta [SFcompare] in *;
    try discriminate Hxy; try reflexivity.
  all: change (PosDef.Pos.compare_cont Eq) with Pos.compare in *.
  all: destruct (Z.compare_spec ex ey); try discriminate Hxy;
       destruct (Z.compare_spec ey ex); try reflexivity; try lia.
  all: destruct (Pos.compare_spec mx my); try discriminate Hxy;
       destruct (Pos.compare_spec my mx); try reflexivity; try lia.
Qed.

(** [a < b] excludes [b <= a]. *)
Lemma ltb_leb_false (a b : float) :
  (a <? b)%float = true -> (b <=? a)%float = false.
Proof.
  rewrite FloatAxioms.ltb_spec, FloatAxioms.leb_spec. unfold SFltb, SFleb.
  intros Hlt.
  assert (H : SFcompare (Prim2SF a) (Prim2SF b) = Some Lt).
  { destruct (SFcompare (Prim2SF a) (Prim2SF b)) as [[]|]; easy. }
  now rewrite (SFcompare_lt_gt _ _ H).
Qed.

(** Only NaN differs from itself, and NaN is below nothing. *)
Lemma nan_not_above_zero (r : float) :
  (r =? r)%float = false -> (0 <=? r)%float = false.
Proof.
  rewrite FloatAxioms.eqb_spec, FloatAxioms.leb_spec, Prim2SF_zero.
  destruct (Prim2SF r) as [s|s| |s m e];
    cbv beta iota delta [SFeqb SFleb SFcompare]; try destruct s;
    try discriminate; try reflexivity.
  all: change (PosDef.Pos.compare_cont Eq) with Pos.compare.
  all: rewrite Z.compare_refl, Pos.compare_refl; discriminate.
Qed.

Lemma zero_in_unit_range (r : float) :
  (r =? 0)%float = true -> PyFloat.in_unit_range r = true.
Proof.
  intros Hz. destruct (eqb_zero_inv r Hz) as [s Hs].
  unfold PyFloat.in_unit_range.
  rewrite !FloatAxioms.leb_spec, Hs, Prim2SF_zero, Prim2SF_one. reflexivity.
Qed.

Lemma one_in_unit_range (r : float) :
  (r =? 1)%float = true -> PyFloat.in_unit_range r = true.
Proof. intros H1. apply eqb_one_inv in H1. now subst r. Qed.

Lemma outside_unit_range (r : float) :
  (r <? 0)%float = true \/ (1 <? r)%float = true \/ (r =? r)%float = false ->
  PyFloat.in_unit_range r = false.
Proof.
  unfold PyFloat.in_unit_range. intros [Hneg|[Hbig|Hnan]].
  - now rewrite (ltb_leb_false _ _ Hneg).
  - rewrite (ltb_leb_false _ _ Hbig). apply andb_false_r.
  - now rewrite (nan_not_above_zero _ Hnan).
Qed.

Section RateParse.

Variable float_of_str : string -> option float.
Variable str_of_float : float -> string.

(** X12. The range of a rate is the closed interval: a converted value
    equal to 0.0 (of either sign) or to 1.0 is returned as it is, with no
    record logged; a negative value, a value above 1.0 and NaN give the
    default and one error record that carries the value. *)
Theorem parse_rate_bounds_are_inclusive
  (env_var : string) (d r : float) (st : State) :
  float_of_str (rate_input str_of_float (environ st) env_var d) = Some r ->
  ((r =? 0)%float = true \/ (r =? 1)%float = true ->
   _parse_rate float_of_str str_of_float env_var d st = (Return r, st))
  /\ ((r <? 0)%float = true \/ (1 <? r)%float = true \/ (r =? r)%float = false ->
      _parse_rate float_of_str str_of_float env_var d st
      = (Return d, logged ERROR (InvalidRate env_var r) st)).
Proof.
  intros Hconv.
  unfold _parse_rate, try_except, float_. run.
  unfold rate_input in Hconv. rewrite Hconv. cbn beta iota. split.
  - intros Hin.
    assert (Hr : PyFloat.in_unit_range r = true)
      by (destruct Hin; [now apply zero_in_unit_range|now apply one_in_unit_range]).
    now rewrite Hr.
  - intros Hout. now rewrite (outside_unit_range r Hout).
Qed.

(** X13. With the variable unset a rate parse returns its default, whatever
    the default is, as long as [float(str(default))] is the default again:
    silently for a default within [0.0, 1.0], and after an error record for
    a default outside of it. *)
Theorem parse_rate_unset_variable (env_var : string) (d : float) (st : State) :
  environ st !! env_var = None ->
  float_of_str (str_of_float d) = Some d ->
  _parse_rate float_of_str str_of_float env_var d st
  = (Return d,
     if PyFloat.in_unit_range d then st
     else logged ERROR (InvalidRate env_var d) st).
Proof.
  intros Hunset Hround.
  unfold _parse_rate, try_except, float_. run.
  rewrite Hunset. cbn [default from_option]. rewrite Hround. cbn beta iota.
  now destruct (PyFloat.in_unit_range d).
Qed.

End RateParse.

Lemma parse_rate_bounds_are_inclusive_witness :
  let st := {| self := sample_injector false 0%float ∅;
               environ := {[ "AMI_TEST_IMAGE_404_RATE" := "1.0" ]};
               rng := sample_rng; log := [] |} in
  sample_float (rate_input sample_str (environ st) "AMI_TEST_IMAGE_404_RATE" 0%float)
  = Some 1%float
  /\ _parse_rate sample_float sample_str "AMI_TEST_IMAGE_404_RATE" 0%float st
     = (Return 1%float, st).
Proof.
  cbn zeta. split; [vm_compute; reflexivity|].
  apply (parse_rate_bounds_are_inclusive sample_float sample_str
           "AMI_TEST_IMAGE_404_RATE" 0%float 1%float).
  - vm_compute. reflexivity.
  - right. reflexivity.
Defined.

Lemma parse_rate_unset_variable_witness :
  environ (sample_state false 0%float ∅) !! "AMI_TEST_IMAGE_404_RATE" = None
  /\ sample_float (sample_str 0%float) = Some 0%float
  /\ _parse_rate sample_float sample_str "AMI_TEST_IMAGE_404_RATE" 0%float
       (sample_state false 0%float ∅)
     = (Return 0%float, sample_state false 0%float ∅).
Proof.
  split; [reflexivity|]. split; [reflexivity|].
  apply (parse_rate_unset_variable sample_float sample_str
           "AMI_TEST_IMAGE_404_RATE" 0%float (sample_state false 0%float ∅));
    reflexivity.
Defined.

Example parse_rate_rejects_nan :
  let st := {| self := sample_injector false 0%float ∅;
               environ := {[ "AMI_TEST_IMAGE_404_RATE" := "nan" ]};
               rng := sample_rng; log := [] |} in
  _parse_rate sample_float sample_str "AMI_TEST_IMAGE_404_RATE" 0%float st
  = (Return 0%float, logged ERROR (InvalidRate "AMI_TEST_IMAGE_404_RATE" nan) st).
Proof. vm_compute. reflexivity. Qed.

(** ** Permanent failures stay permanent *)

(** X14. An image that matches the permanent-failure list keeps failing:
    after any sequence of calls on the injector, whatever they drew and
    whatever they raised, [maybe_image_404] and [maybe_corrupt_image] still
    answer true for it; an image that does not match never starts to. *)
Theorem permanent_failures_persist (cs : list Call) (st : State) (image_url : string) :
  Forall (fun st' =>
            fst (_is_permanent_error_image image_url st')
            = fst (_is_permanent_error_image image_url st))
         (run_calls cs st)
  /\ (fst (_is_permanent_error_image image_url st) = Return true ->
      Forall (fun st' =>
                fst (maybe_image_404 image_url st') = Return true
                /\ fst (maybe_corrupt_image image_url st') = Return true)
             (run_calls cs st)).
Proof.
  pose proof (run_calls_self cs st (self st) eq_refl) as Hself.
  split.
  - eapply Forall_impl; [exact Hself|]. intros st' Hst'.
    now rewrite !is_permanent_error_image_eq, Hst'.
  - rewrite is_permanent_error_image_eq. cbn [fst]. intros [= Hv].
    eapply Forall_impl; [exact Hself|]. intros st' Hst'.
    now rewrite maybe_image_404_eq, maybe_corrupt_image_eq, Hst', Hv.
Qed.

Lemma permanent_failures_persist_witness :
  fst (_is_permanent_error_image "http://host/a.jpg"
         (sample_state true 0%float {[ "a.jpg" ]})) = Return true
  /\ Forall (fun st' =>
               fst (maybe_image_404 "http://host/a.jpg" st') = Return true
               /\ fst (maybe_corrupt_image "http://host/a.jpg" st') = Return true)
            (run_calls [CallMaybeNetworkError "API call";
                        CallRaiseNetworkError "API call";
                        CallMaybeImage404 "http://host/a.jpg"]
               (sample_state true 0%float {[ "a.jpg" ]})).
Proof.
  assert (H : fst (_is_permanent_error_image "http://host/a.jpg"
                     (sample_state true 0%float {[ "a.jpg" ]})) = Return true)
    by (vm_compute; reflexivity).
  split; [exact H|].
  now apply (permanent_failures_persist _ (sample_state true 0%float {[ "a.jpg" ]})
               "http://host/a.jpg").
Defined.

(** ** The extreme rates, query by query *)

Lemma drawn_rate_one (r : float) (ev : LogEvent) (st : State) :
  enabled (self st) = true ->
  PyFloat.is_draw (next_draw st) = true ->
  (r =? 1)%float = true ->
  fst (drawn r ev st) = Return true.
Proof.
  intros Hon Hd H1. apply eqb_one_inv in H1. subst r.
  apply is_draw_inv in Hd. destruct Hd as [_ Hhi].
  unfold drawn. now rewrite Hon, Hhi.
Qed.

Lemma drawn_rate_zero (r : float) (ev : LogEvent) (st : State) :
  PyFloat.is_draw (next_draw st) = true ->
  (r =? 0)%float = true ->
  fst (drawn r ev st) = Return false.
Proof.
  intros Hd H0. apply is_draw_inv in Hd. destruct Hd as [Hlo _].
  unfold drawn. destruct (enabled (self st)); [|reflexivity].
  now rewrite (draw_not_below_zero _ _ Hlo H0).
Qed.

(** X15. At the extreme rates the queries are decided.  For a draw in
    [0, 1): a query whose rate equals 1.0 answers true on an enabled
    injector, and [maybe_crash_worker] exits; a query whose rate equals 0.0
    answers false, [maybe_crash_worker] returns, and the two image queries
    answer what the permanent-failure check answers. *)
Theorem extreme_rates_decide (st : State) (text image_url : string) :
  PyFloat.is_draw (next_draw st) = true ->
  (enabled (self st) = true ->
   ((network_error_rate (self st) =? 1)%float = true ->
    fst (maybe_network_error text st) = Return true)
   /\ ((image_404_rate (self st) =? 1)%float = true ->
       fst (maybe_image_404 image_url st) = Return true)
   /\ ((corrupt_image_rate (self st) =? 1)%float = true ->
       fst (maybe_corrupt_image image_url st) = Return true)
   /\ ((transient_error_rate (self st) =? 1)%float = true ->
       fst (maybe_transient_error text st) = Return true)
   /\ ((worker_crash_rate (self st) =? 1)%float = true ->
       fst (maybe_crash_worker text st) = Exit 1%Z))
  /\ ((network_error_rate (self st) =? 0)%float = true ->
      fst (maybe_network_error text st) = Return false)
  /\ ((image_404_rate (self st) =? 0)%float = true ->
      fst (maybe_image_404 image_url st)
      = fst (_is_permanent_error_image image_url st))
  /\ ((corrupt_image_rate (self st) =? 0)%float = true ->
      fst (maybe_corrupt_image image_url st)
      = fst (_is_permanent_error_image image_url st))
  /\ ((transient_error_rate (self st) =? 0)%float = true ->
      fst (maybe_transient_error text st) = Return false)
  /\ ((worker_crash_rate (self st) =? 0)%float = true ->
      fst (maybe_crash_worker text st) = Return tt).
Proof.
  intros Hd.
  rewrite maybe_network_error_eq, maybe_transient_error_eq, maybe_image_404_eq,
    maybe_corrupt_image_eq, is_permanent_error_image_eq. cbn [fst].
  split; [intros Hon; split; [|split; [|split; [|split]]]
         |split; [|split; [|split; [|split]]]].
  - now apply drawn_rate_one.
  - intros H1. destruct (permanent_verdict _ _); [reflexivity|].
    now apply drawn_rate_one.
  - intros H1. destruct (permanent_verdict _ _); [reflexivity|].
    now apply drawn_rate_one.
  - now apply drawn_rate_one.
  - intros H1. apply eqb_one_inv in H1.
    apply is_draw_inv in Hd. destruct Hd as [_ Hhi].
    unfold maybe_crash_worker. run. rewrite should_trigger_eq, Hon, H1, Hhi.
    reflexivity.
  - now apply drawn_rate_zero.
  - intros H0. destruct (permanent_verdict _ _); [reflexivity|].
    now apply drawn_rate_zero.
  - intros H0. destruct (permanent_verdict _ _); [reflexivity|].
    now apply drawn_rate_zero.
  - now apply drawn_rate_zero.
  - intros H0. apply is_draw_inv in Hd. destruct Hd as [Hlo _].
    unfold maybe_crash_worker. run. rewrite should_trigger_eq.
    destruct (enabled (self st)); [|reflexivity].
    now rewrite (draw_not_below_zero _ _ Hlo H0).
Qed.

Lemma extreme_rates_decide_witness :
  PyFloat.is_draw (next_draw (sample_state true 1%float ∅)) = true
  /\ fst (maybe_image_404 "x.jpg" (sample_state true 1%float ∅)) = Return true
  /\ fst (maybe_crash_worker "job" (sample_state true 1%float ∅)) = Exit 1%Z.
Proof.
  split; [reflexivity|].
  pose proof (extreme_rates_decide (sample_state true 1%float ∅) "job" "x.jpg" eq_refl)
    as [Hone _].
  specialize (Hone eq_refl). split; apply Hone; reflexivity.
Defined.

(** ** Statistics after construction *)

Section Statistics.

Variable float_of_str : string -> option float.
Variable str_of_float : float -> string.

(** X16. [log_statistics] on a freshly constructed injector repeats the
    figures of the construction notice: one INFO record, with the five
    configured rates and the size of the permanent-failure set when the
    injector is enabled, and the plain notice that it is disabled
    otherwise; the attributes, the generator and the environment stay. *)
Theorem statistics_repeat_the_construction_notice (st : State) :
  exists st',
    __init__ float_of_str str_of_float st = (Return tt, st')
    /\ log_statistics st'
       = (Return tt,
          logged INFO
            (match event (construction_notice float_of_str str_of_float (environ st))
             with
             | FaultInjectionEnabled crash network corrupt not_found transient n =>
                 FaultInjectionRates crash network corrupt not_found transient n
             | _ => FaultInjectionIsDisabled
             end)
            st').
Proof.
  destruct (init_run_full float_of_str str_of_float st) as (st' & Heq & Hself & _).
  exists st'. split; [exact Heq|].
  unfold log_statistics, construction_notice. run. cbn zeta. rewrite Hself.
  now destruct (enabled (configured float_of_str str_of_float (environ st))).
Qed.

End Statistics.

(** ** Successive queries *)

(** X17. Every probabilistic check draws afresh: on an enabled injector two
    successive [maybe_network_error] calls compare the rate with two
    successive outputs of the generator, while an image query answered by
    the permanent-failure list draws nothing, so that the query after it
    sees the output the image query left unused. *)
Theorem successive_queries_draw_afresh (st : State) (text image_url : string) :
  enabled (self st) = true ->
  let k := cursor (rng st) in
  let rate := network_error_rate (self st) in
  fst (maybe_network_error text st)
  = Return (uniform_tape (rng st) k <? rate)%float
  /\ fst (maybe_network_error text (snd (maybe_network_error text st)))
     = Return (uniform_tape (rng st) (S k) <? rate)%float
  /\ (fst (_is_permanent_error_image image_url st) = Return true ->
      fst (maybe_network_error text (snd (maybe_image_404 image_url st)))
      = Return (uniform_tape (rng st) k <? rate)%float)
  /\ (fst (_is_permanent_error_image image_url st) = Return false ->
      fst (maybe_network_error text (snd (maybe_image_404 image_url st)))
      = Return (uniform_tape (rng st) (S k) <? rate)%float).
Proof.
  intros Hon. cbn zeta.
  assert (Hdrawn : forall r ev s,
             enabled (self s) = true ->
             fst (drawn r ev s) = Return (next_draw s <? r)%float
             /\ self (snd (drawn r ev s)) = self s
             /\ rng (snd (drawn r ev s)) = advance (rng s)).
  { intros r ev s Hs. unfold drawn. rewrite Hs.
    destruct (next_draw s <? r)%float; now repeat split. }
  destruct (Hdrawn (network_error_rate (self st)) (SimulatedNetworkError text) st Hon)
    as (H1 & Hself1 & Hrng1).
  rewrite is_permanent_error_image_eq, maybe_image_404_eq. cbn [fst].
  rewrite !maybe_network_error_eq.
  split; [exact H1|]. split; [|split].
  - destruct (Hdrawn (network_error_rate
                        (self (snd (drawn (network_error_rate (self st))
                                      (SimulatedNetworkError text) st))))
                (SimulatedNetworkError text)
                (snd (drawn (network_error_rate (self st))
                        (SimulatedNetworkError text) st)))
      as (H2 & _); [now rewrite Hself1|].
    rewrite H2. unfold next_draw. now rewrite Hrng1, Hself1.
  - intros [= ->]. cbn [snd].
    destruct (Hdrawn (network_error_rate
                        (self (logged ERROR (PermanentImageError404 image_url) st)))
                (SimulatedNetworkError text)
                (logged ERROR (PermanentImageError404 image_url) st) Hon)
      as (H2 & _).
    exact H2.
  - intros [= ->].
    destruct (Hdrawn (image_404_rate (self st)) (SimulatedImage404 image_url) st Hon)
      as (_ & Hself2 & Hrng2).
    destruct (Hdrawn (network_error_rate
                        (self (snd (drawn (image_404_rate (self st))
                                      (SimulatedImage404 image_url) st))))
                (SimulatedNetworkError text)
                (snd (drawn (image_404_rate (self st))
                        (SimulatedImage404 image_url) st)))
      as (H2 & _); [now rewrite Hself2|].
    rewrite H2. unfold next_draw. now rewrite Hrng2, Hself2.
Qed.

Lemma successive_queries_draw_afresh_witness :
  enabled (self (sample_state true 0.75%float {[ "a.jpg" ]})) = true
  /\ fst (maybe_network_error "API call"
            (snd (maybe_image_404 "a.jpg"
                    (sample_state true 0.75%float {[ "a.jpg" ]}))))
     = Return true.
Proof.
  split; [reflexivity|].
  destruct (successive_queries_draw_afresh
              (sample_state true 0.75%float {[ "a.jpg" ]}) "API call" "a.jpg" eq_refl)
    as (_ & _ & Hperm & _).
  rewrite Hperm; [reflexivity|]. vm_compute. reflexivity.
Defined.
